(** * BlueSky QtGL: simulation engine and GUI I/O client

    A shallow embedding of [bluesky/ui/qtgl/guiio.py] (classes [nodeData]
    and [GuiClient]) and of [bluesky/simulation/qtgl/simulation.py] (class
    [Simulation]), with the properties of their behaviour proved on it.

    Conventions of the embedding:
    - a method [m(self, args)] is a function [m args self] returning the
      new object (and the returned value, when the method returns one);
    - a raised exception is [None];
    - numpy arrays and Python lists are [list]s, a [dict] is a [gmap], a
      [set] is a [gset];
    - Python [str] and [bytes] values are [string]s (sequences of 8-bit
      characters; [upper] and [isdigit] are the ASCII ones);
    - simulation times are exact rationals ([Q]): binary64 rounding is not
      modelled;
    - calls into collaborating subsystems (command stack, node manager,
      plugins, screen, network client base class, Qt signals) are recorded
      in a call trace, oldest first. *)

From stdpp Require Import gmap strings list fin_maps.
From Stdlib Require Import Ascii QArith Qround Qabs Lia Lqa.

Local Open Scope nat_scope.

(** ** Python and numpy primitives used by the two files *)

(** [range(start, stop)] *)
Definition py_range (start stop : nat) : list nat := seq start (stop - start).

(** Normalisation of one slice bound against a sequence of length [len]
    (positive step): a negative bound counts from the end, and every bound
    is clamped to [0 .. len]. *)
Definition adjust_index (len : nat) (i : Z) : nat :=
  if (i <? 0)%Z then Z.to_nat (i + Z.of_nat len) else Nat.min (Z.to_nat i) len.

(** The indices selected by [start:stop:step] ([None] is an omitted bound),
    for [step >= 1]. *)
Definition slice_indices (len : nat) (start stop : option Z) (step : nat) : list nat :=
  let lo := from_option (adjust_index len) 0 start in
  let hi := from_option (adjust_index len) len stop in
  (λ j, lo + j * step) <$> seq 0 ((hi - lo + (step - 1)) / step).

Section sequences.
Context {A : Type}.

(** [l[start:stop:step]] *)
Definition getslice (l : list A) (start stop : option Z) (step : nat) : list A :=
  omap (λ i, l !! i) (slice_indices (length l) start stop step).

(** Element-wise store of [vals] at the positions [idxs]. *)
Fixpoint assign_at (buf : list A) (idxs : list nat) (vals : list A) : list A :=
  match idxs, vals with
  | i :: idxs', v :: vals' => assign_at (<[i := v]> buf) idxs' vals'
  | _, _ => buf
  end.

(** [buf[start:stop:step] = vals] on a numpy array: the shapes must agree,
    except that a one-element right-hand side is broadcast; anything else
    raises [ValueError]. *)
Definition setslice (buf : list A) (start stop : option Z) (step : nat)
    (vals : list A) : option (list A) :=
  let idxs := slice_indices (length buf) start stop step in
  if decide (length vals = length idxs) then Some (assign_at buf idxs vals)
  else match vals with
       | [v] => Some (assign_at buf idxs (replicate (length idxs) v))
       | _ => None
       end.

(** The elements of [arr] whose index, counted from [i], is not in [obj]. *)
Fixpoint drop_indices (i : nat) (obj : list nat) (arr : list A) : list A :=
  match arr with
  | [] => []
  | x :: arr' =>
      if bool_decide (i ∈ obj) then drop_indices (S i) obj arr'
      else x :: drop_indices (S i) obj arr'
  end.

(** [np.delete(arr, obj)] for a list [obj] of non-negative indices: a
    copy of [arr] without the listed positions; an index beyond the array
    raises [IndexError] (numpy before 1.19 ignored it with a warning; no
    property below depends on that case). *)
Definition np_delete (arr : list A) (obj : list nat) : option (list A) :=
  if decide (Forall (λ i, i < length arr) obj) then Some (drop_indices 0 obj arr)
  else None.
End sequences.

(** The index list [lo, lo + step, ...] of [n] elements. *)
Definition strided (lo step n : nat) : list nat :=
  (λ j, lo + j * step) <$> seq 0 n.

(** [s.ljust(width)]: [s] followed by spaces up to [width] characters; a
    longer [s] is returned as it is. *)
Fixpoint spaces (n : nat) : string :=
  match n with
  | 0 => ""
  | S n' => String " "%char (spaces n')
  end.

Definition ljust (width : nat) (s : string) : string :=
  s +:+ spaces (width - String.length s).










(** [int(x)]: truncation towards zero. *)
Definition py_int (x : Q) : Z := Z.quot (Qnum x) (Z.pos (Qden x)).

(** ** simulation.py: events, collaborators *)

(** Simulation modes: [init, op, hold, end = list(range(4))]. *)
Inductive sim_state := init | op | hold | end_.

(** The events of [simevents], told apart by [event.type()]; [OtherEvent]
    stands for every other event type (GUI events among them). *)
Inductive sim_event :=
| StackTextEvent (cmdtext sender_id : string)
| BatchEvent (scentime : list Q) (scencmd : list string)
| SimStateEvent (state : sim_state)
| SimQuitEvent
| OtherEvent (type : nat) (payload : string).

(** The calls the engine makes into its collaborators. *)
Inductive call :=
| stack_openfile (filename : string)
| stack_get_scendata
| stack_set_scendata (scentime : list Q) (scencmd : list string)
| stack_stack (cmdtext sender_id : string)
| stack_reset
| manager_sendEvent (ev : sim_event)
| plugin_update (simt : Q)
| plugin_reset
| navdb_reset
| traf_update (simt simdt : Q)
| traf_reset
| datalog_postupdate
| datalog_reset
| areafilter_reset
| scr_reset
| scr_event (ev : sim_event).

(** What a stack function returns: a bare flag, or a flag with a message
    (as [setclock] itself does). *)
Inductive stack_result :=
| Flag (b : bool)
| FlagMsg (b : bool) (msg : string).

(** [result is True] *)
Definition is_True (r : stack_result) : bool :=
  match r with
  | Flag true => true
  | _ => false
  end.

Record struct_time := mkTime { tm_hour : Z; tm_min : Z; tm_sec : Z }.

(** The collaborators, none of which is part of the two files: [Ext] is
    their joint state (command stack, node manager, plugins, traffic,
    screen, the operating system's clock), [ext_call] the effect of a call
    on it, and the other fields the values that calls return in a state.
    [txt2tim] and [tim2txt] are the pure converters of
    [bluesky.tools.misc]. *)
Class Collaborators := {
  Ext : Type;
  ext_call : call → Ext → Ext;
  openfile_result : string → Ext → stack_result;
  scendata : Ext → list Q * list string;
  scr_event_result : sim_event → Ext → bool;
  time_ms : Ext → Z;
  localtime : Ext → struct_time;
  gmtime : Ext → struct_time;
  txt2tim : string → Q;
  tim2txt : Q → string;
  settings_simdt : Q
}.

(** Collaborators that do nothing and return fixed values, for running the
    engine on concrete inputs. *)
Definition idle_collaborators : Collaborators := {|
  Ext := unit;
  ext_call := λ _ e, e;
  openfile_result := λ _ _, Flag true;
  scendata := λ _, ([], []);
  scr_event_result := λ _ _, false;
  time_ms := λ _, 0%Z;
  localtime := λ _, mkTime 12 0 0;
  gmtime := λ _, mkTime 11 0 0;
  txt2tim := λ _, 0%Q;
  tim2txt := λ _, "";
  settings_simdt := (5 # 100)%Q
|}.


(** ** guiio.py: the per-node mirror [nodeData] *)

Section bluesky.
(** The type of array elements and coordinates, the conversion
    [np.float32], the unspecified contents of an [np.empty] array, and
    the default transition level [4500.*ft] ([ft] is imported from
    [bluesky.tools.aero]). *)
Variable float : Type.
Variable float32 : float → float.
Variable uninit : nat → float.
Variable translvl_default : float.

Record nodeData := mkNodeData {
  polynames : gmap string (nat * nat);
  polydata : list float;
  custwplbl : string;
  custwplat : list float;
  custwplon : list float;
  filteralt : option (list float);
  traillat0 : list float;
  traillon0 : list float;
  traillat1 : list float;
  traillon1 : list float;
  translvl : float;
  show_map : bool;
  show_coast : bool;
  show_traf : bool;
  show_pz : bool;
  show_fir : bool;
  show_lbl : nat;
  show_wpt : nat;
  show_apt : nat;
  ssd_all : bool;
  ssd_conflicts : bool;
  ssd_ownship : gset string
}.

Definition set_poly (names : gmap string (nat * nat)) (data : list float)
    (self : nodeData) : nodeData :=
  mkNodeData names data (custwplbl self) (custwplat self) (custwplon self)
    (filteralt self) (traillat0 self) (traillon0 self) (traillat1 self)
    (traillon1 self) (translvl self) (show_map self) (show_coast self)
    (show_traf self) (show_pz self) (show_fir self) (show_lbl self)
    (show_wpt self) (show_apt self) (ssd_all self) (ssd_conflicts self)
    (ssd_ownship self).

Definition set_custwp (lbl : string) (lat lon : list float)
    (self : nodeData) : nodeData :=
  mkNodeData (polynames self) (polydata self) lbl lat lon
    (filteralt self) (traillat0 self) (traillon0 self) (traillat1 self)
    (traillon1 self) (translvl self) (show_map self) (show_coast self)
    (show_traf self) (show_pz self) (show_fir self) (show_lbl self)
    (show_wpt self) (show_apt self) (ssd_all self) (ssd_conflicts self)
    (ssd_ownship self).

Definition set_ssd (all conflicts : bool) (ownship : gset string)
    (self : nodeData) : nodeData :=
  mkNodeData (polynames self) (polydata self) (custwplbl self)
    (custwplat self) (custwplon self)
    (filteralt self) (traillat0 self) (traillon0 self) (traillat1 self)
    (traillon1 self) (translvl self) (show_map self) (show_coast self)
    (show_traf self) (show_pz self) (show_fir self) (show_lbl self)
    (show_wpt self) (show_apt self) all conflicts ownship.

(** [clear_scen_data] assigns every field, so its result does not depend
    on the object it is called on. *)
Definition clear_scen_data : nodeData :=
  mkNodeData ∅ [] "" [] [] None [] [] [] [] translvl_default
    true true true false true 2 1 1 false false ∅.

Definition np_empty (n : nat) : list float := uninit <$> seq 0 n.

(** First block of [update_poly_data]: a stored polygon is removed. *)
Definition remove_poly (name : string) (self : nodeData) : option nodeData :=
  match polynames self !! name with
  | Some (a, b) =>
      pd ← np_delete (polydata self) (py_range a b);
      Some (set_poly (delete name (polynames self)) pd self)
  | None => Some self
  end.

(** The line-segment buffer built from the flat list [data]. *)
Definition segment_buffer (data : list float) : option (list float) :=
  let newbuf := np_empty (2 * length data) in
  (* newbuf[0::4] = data[0::2] *)
  newbuf ← setslice newbuf (Some 0%Z) None 4
             (float32 <$> getslice data (Some 0%Z) None 2);
  (* newbuf[1::4] = data[1::2] *)
  newbuf ← setslice newbuf (Some 1%Z) None 4
             (float32 <$> getslice data (Some 1%Z) None 2);
  (* newbuf[2:-2:4] = data[2::2] *)
  newbuf ← setslice newbuf (Some 2%Z) (Some (-2)%Z) 4
             (float32 <$> getslice data (Some 2%Z) None 2);
  (* newbuf[3:-3:4] = data[3::2] *)
  newbuf ← setslice newbuf (Some 3%Z) (Some (-3)%Z) 4
             (float32 <$> getslice data (Some 3%Z) None 2);
  (* newbuf[-2:] = data[0:2] *)
  setslice newbuf (Some (-2)%Z) None 1
    (float32 <$> getslice data (Some 0%Z) (Some 2%Z) 1).

(** Second block of [update_poly_data]: the new polygon is appended. *)
Definition append_poly (name : string) (data : list float) (self : nodeData)
    : option nodeData :=
  let names := <[name := (length (polydata self), 2 * length data)]> (polynames self) in
  newbuf ← segment_buffer data;
  Some (set_poly names (polydata self ++ newbuf) self).

Definition update_poly_data (name : string) (data : option (list float))
    (self : nodeData) : option nodeData :=
  self ← remove_poly name self;
  match data with
  | Some data => append_poly name data self
  | None => Some self
  end.

(** The lengths stored in [polynames], added up; in every state that
    [update_poly_data] can reach they add up to at most the length of the
    buffer. *)
Definition stored_length (names : gmap string (nat * nat)) : nat :=
  map_fold (λ _ v acc, v.2 + acc) 0 names.

Definition poly_fits (self : nodeData) : Prop :=
  stored_length (polynames self) ≤ length (polydata self).

Definition defwpt (name : string) (lat lon : float) (self : nodeData) : nodeData :=
  set_custwp (custwplbl self +:+ ljust 5 name)
    (custwplat self ++ [float32 lat]) (custwplon self ++ [float32 lon]) self.

Definition show_ssd (arg : list string) (self : nodeData) : nodeData :=
  if bool_decide ("ALL" ∈ arg) then
    set_ssd true false (ssd_ownship self) self
  else if bool_decide ("CONFLICTS" ∈ arg) then
    set_ssd false true (ssd_ownship self) self
  else if bool_decide ("OFF" ∈ arg) then
    set_ssd false false ∅ self
  else
    let remove := ssd_ownship self ∩ list_to_set arg in
    set_ssd (ssd_all self) (ssd_conflicts self)
      ((ssd_ownship self ∪ list_to_set arg) ∖ remove) self.

(** A sequence of [defwpt] calls [(name, lat, lon)], applied in order. *)
Definition defwpt_seq (calls : list (string * float * float)) (self : nodeData)
    : nodeData :=
  foldl (λ s c, defwpt c.1.1 c.1.2 c.2 s) self calls.

(** ** guiio.py: [GuiClient.actnode] *)

(** Calls into the base class [bluesky.io.Client] and signal emissions. *)
Inductive client_call :=
| unsubscribe (topic node_id : string)
| subscribe (topic node_id : string)
| actnodedata_changed_emit (node_id : string) (data : option nodeData)
    (what : list string).

Definition UPDATE_ALL : list string := ["POLY"; "TRAILS"; "CUSTWPT"].

(** [act] is [b''] while no node is active; [client_calls] is the trace of
    base-class calls and emissions made so far. *)
Record GuiClient := mkGuiClient {
  act : string;
  nodedata : gmap string nodeData;
  client_calls : list client_call
}.

Definition do_call (c : client_call) (self : GuiClient) : GuiClient :=
  mkGuiClient (act self) (nodedata self) (client_calls self ++ [c]).

Definition set_act (a : string) (self : GuiClient) : GuiClient :=
  mkGuiClient a (nodedata self) (client_calls self).

Definition actnode (newact : option string) (self : GuiClient)
    : string * GuiClient :=
  match newact with
  | Some newact =>
      let self :=
        if bool_decide (act self ≠ "")
        then do_call (unsubscribe "ACDATA" (act self)) self
        else self in
      let self := do_call (subscribe "ACDATA" newact) self in
      let self := set_act newact self in
      let actdata := nodedata self !! newact in
      let self := do_call (actnodedata_changed_emit newact actdata UPDATE_ALL) self in
      (act self, self)
  | None => (act self, self)
  end.

(** *** simulation.py: class [Simulation] *)

Context {collaborators : Collaborators}.

Record Simulation := mkSimulation {
  running : bool;
  state : sim_state;
  prevstate : option sim_state;
  syst : Z;
  bencht : Q;
  benchdt : Q;
  simt : Q;
  simdt : Q;
  dtmult : Q;
  deltclock : Q;
  simtclock : Q;
  sysdt : Z;
  ffmode : bool;
  ffstop : option Q
}.

Definition set_running (v : bool) (s : Simulation) : Simulation :=
  mkSimulation v (state s) (prevstate s) (syst s) (bencht s) (benchdt s)
    (simt s) (simdt s) (dtmult s) (deltclock s) (simtclock s) (sysdt s)
    (ffmode s) (ffstop s).

Definition set_state (v : sim_state) (s : Simulation) : Simulation :=
  mkSimulation (running s) v (prevstate s) (syst s) (bencht s) (benchdt s)
    (simt s) (simdt s) (dtmult s) (deltclock s) (simtclock s) (sysdt s)
    (ffmode s) (ffstop s).

Definition set_syst (v : Z) (s : Simulation) : Simulation :=
  mkSimulation (running s) (state s) (prevstate s) v (bencht s) (benchdt s)
    (simt s) (simdt s) (dtmult s) (deltclock s) (simtclock s) (sysdt s)
    (ffmode s) (ffstop s).

Definition set_simt (v : Q) (s : Simulation) : Simulation :=
  mkSimulation (running s) (state s) (prevstate s) (syst s) (bencht s)
    (benchdt s) v (simdt s) (dtmult s) (deltclock s) (simtclock s)
    (sysdt s) (ffmode s) (ffstop s).



Definition set_deltclock (v : Q) (s : Simulation) : Simulation :=
  mkSimulation (running s) (state s) (prevstate s) (syst s) (bencht s)
    (benchdt s) (simt s) (simdt s) (dtmult s) v (simtclock s)
    (sysdt s) (ffmode s) (ffstop s).

Definition set_simtclock (v : Q) (s : Simulation) : Simulation :=
  mkSimulation (running s) (state s) (prevstate s) (syst s) (bencht s)
    (benchdt s) (simt s) (simdt s) (dtmult s) (deltclock s) v
    (sysdt s) (ffmode s) (ffstop s).


Definition set_ffmode (v : bool) (s : Simulation) : Simulation :=
  mkSimulation (running s) (state s) (prevstate s) (syst s) (bencht s)
    (benchdt s) (simt s) (simdt s) (dtmult s) (deltclock s) (simtclock s)
    (sysdt s) v (ffstop s).

(** The engine together with its collaborators and the trace of the
    calls made into them. *)
Record World := mkWorld {
  sim : Simulation;
  ext : Ext;
  trace : list call
}.

(** Methods that call collaborators are state transformers on [World]. *)
Definition M (A : Type) : Type := World → A * World.

Definition ret {A} (a : A) : M A := λ w, (a, w).

Definition bind {A B} (m : M A) (k : A → M B) : M B :=
  λ w, let (a, w') := m w in k a w'.

Notation "x <- m ;; k" := (bind m (λ x, k))
  (at level 100, m at next level, right associativity).
Notation "m ;; k" := (bind m (λ _, k))
  (at level 100, right associativity).

(** A call that returns nothing of interest. *)
Definition ext_do (c : call) : M unit :=
  λ w, (tt, mkWorld (sim w) (ext_call c (ext w)) (trace w ++ [c])).

(** A call whose returned value [f] is read off the collaborators' state
    in which it is made. *)
Definition ext_ask {A} (c : call) (f : Ext → A) : M A :=
  λ w, (f (ext w), mkWorld (sim w) (ext_call c (ext w)) (trace w ++ [c])).

(** Reading the clock of the operating system. *)
Definition os_clock {A} (f : Ext → A) : M A := λ w, (f (ext w), w).

Definition self_get {A} (f : Simulation → A) : M A := λ w, (f (sim w), w).

Definition self_set (f : Simulation → Simulation) : M unit :=
  λ w, (tt, mkWorld (f (sim w)) (ext w) (trace w)).

(** [__init__] *)
Definition Simulation_init : Simulation :=
  mkSimulation true init None 0 0 (-1) 0 settings_simdt 1 0 0
    (py_int (settings_simdt / 1 * 1000)) false None.


Definition start : M unit :=
  ff <- self_get ffmode ;;
  (if ff then (t <- os_clock time_ms ;; self_set (set_syst t)) else ret tt) ;;
  self_set (set_ffmode false) ;;
  self_set (set_state op).

Definition pause : M unit := self_set (set_state hold).

Definition reset : M unit :=
  self_set (set_simt 0) ;;
  self_set (set_deltclock 0) ;;
  self_set (λ s, set_simtclock (simt s) s) ;;
  self_set (set_state init) ;;
  self_set (set_ffmode false) ;;
  ext_do plugin_reset ;;
  ext_do navdb_reset ;;
  ext_do traf_reset ;;
  ext_do stack_reset ;;
  ext_do datalog_reset ;;
  ext_do areafilter_reset ;;
  ext_do scr_reset.

Definition quit : M unit := self_set (set_running false).



Definition batch (filename : string) : M stack_result :=
  result <- ext_ask (stack_openfile filename) (openfile_result filename) ;;
  scen <- ext_ask stack_get_scendata scendata ;;
  (if is_True result then ext_do (manager_sendEvent (BatchEvent scen.1 scen.2))
   else ret tt) ;;
  reset ;;
  ret result.

Definition event (ev : sim_event) : M bool :=
  let event_processed := false in
  match ev with
  | StackTextEvent cmdtext sender_id =>
      ext_do (stack_stack cmdtext sender_id) ;;
      ret true
  | BatchEvent scentime scencmd =>
      reset ;;
      ext_do (stack_set_scendata scentime scencmd) ;;
      start ;;
      ret true
  | SimQuitEvent =>
      quit ;;
      ret event_processed
  | _ => ext_ask (scr_event ev) (scr_event_result ev)
  end.





(** ** simulation.py: the other methods of [Simulation] *)

Definition set_prevstate (v : option sim_state) (s : Simulation) : Simulation :=
  mkSimulation (running s) (state s) v (syst s) (bencht s) (benchdt s)
    (simt s) (simdt s) (dtmult s) (deltclock s) (simtclock s) (sysdt s)
    (ffmode s) (ffstop s).

Definition set_ffstop (v : option Q) (s : Simulation) : Simulation :=
  mkSimulation (running s) (state s) (prevstate s) (syst s) (bencht s)
    (benchdt s) (simt s) (simdt s) (dtmult s) (deltclock s) (simtclock s)
    (sysdt s) (ffmode s) v.

(** [stop]; [is_headless] is the value of [settings.is_headless]. *)
Definition stop (is_headless : bool) : M unit :=
  self_set (set_state end_) ;;
  ext_do datalog_reset ;;
  if is_headless then self_set (set_running false) else ret tt.

Definition fastforward (nsec : option Q) : M unit :=
  self_set (set_ffmode true) ;;
  match nsec with
  | Some nsec => self_set (λ s, set_ffstop (Some (simt s + nsec)%Q) s)
  | None => self_set (set_ffstop None)
  end.

Definition setFixdt (flag : bool) (nsec : option Q) : M unit :=
  if flag then fastforward nsec else start.

Definition sendState : M unit :=
  st <- self_get state ;;
  ext_do (manager_sendEvent (SimStateEvent st)).

#[local] Instance sim_state_eq_dec : EqDecision sim_state.
Proof. solve_decision. Defined.

(** Lines 143 to 145 of the loop body of [doWork]: the node manager is
    told of a change of state. *)
Definition doWork_notify : M unit :=
  st <- self_get state ;;
  prev <- self_get prevstate ;;
  if bool_decide (Some st = prev) then ret tt
  else sendState ;; self_set (λ s, set_prevstate (Some (state s)) s).



(** ** guiio.py: [nodeData.setflag] *)

(** [not x] for a display level or flag [x]: [False] and [True] are the
    integers 0 and 1 (in Python [bool] is a subclass of [int], and
    [False == 0], [True == 1]). *)
Definition py_not (x : nat) : nat := if decide (x = 0) then 1 else 0.

(** The [args] of [setflag], in the two shapes its branches read: the ids
    (or ALL, CONFLICTS, OFF) of SSD, and the on/off flag followed by the
    altitudes of FILTERALT. *)
Inductive flag_args :=
| ids_args (ids : list string)
| switch_args (on : bool) (rest : list float).

Definition set_show (map coast traf pz fir : bool) (wpt apt : nat)
    (self : nodeData) : nodeData :=
  mkNodeData (polynames self) (polydata self) (custwplbl self)
    (custwplat self) (custwplon self)
    (filteralt self) (traillat0 self) (traillon0 self) (traillat1 self)
    (traillon1 self) (translvl self) map coast traf pz fir (show_lbl self)
    wpt apt (ssd_all self) (ssd_conflicts self) (ssd_ownship self).

Definition set_filteralt (v : option (list float)) (self : nodeData) : nodeData :=
  mkNodeData (polynames self) (polydata self) (custwplbl self)
    (custwplat self) (custwplon self)
    v (traillat0 self) (traillon0 self) (traillat1 self)
    (traillon1 self) (translvl self) (show_map self) (show_coast self)
    (show_traf self) (show_pz self) (show_fir self) (show_lbl self)
    (show_wpt self) (show_apt self) (ssd_all self) (ssd_conflicts self)
    (ssd_ownship self).

Definition set_show_map (v : bool) (self : nodeData) : nodeData :=
  set_show v (show_coast self) (show_traf self) (show_pz self) (show_fir self)
    (show_wpt self) (show_apt self) self.

Definition set_show_coast (v : bool) (self : nodeData) : nodeData :=
  set_show (show_map self) v (show_traf self) (show_pz self) (show_fir self)
    (show_wpt self) (show_apt self) self.

Definition set_show_traf (v : bool) (self : nodeData) : nodeData :=
  set_show (show_map self) (show_coast self) v (show_pz self) (show_fir self)
    (show_wpt self) (show_apt self) self.

Definition set_show_pz (v : bool) (self : nodeData) : nodeData :=
  set_show (show_map self) (show_coast self) (show_traf self) v (show_fir self)
    (show_wpt self) (show_apt self) self.

Definition set_show_fir (v : bool) (self : nodeData) : nodeData :=
  set_show (show_map self) (show_coast self) (show_traf self) (show_pz self) v
    (show_wpt self) (show_apt self) self.

Definition set_show_wpt (v : nat) (self : nodeData) : nodeData :=
  set_show (show_map self) (show_coast self) (show_traf self) (show_pz self)
    (show_fir self) v (show_apt self) self.

Definition set_show_apt (v : nat) (self : nodeData) : nodeData :=
  set_show (show_map self) (show_coast self) (show_traf self) (show_pz self)
    (show_fir self) (show_wpt self) v self.

(** [setflag]. The result is [None] when [args[0]] raises [IndexError], and
    also when [args] has the shape of the other command, which the fields
    [ssd_ownship] and [filteralt] cannot hold. *)
Definition setflag (flag : string) (args : flag_args) (self : nodeData)
    : option nodeData :=
  if bool_decide (flag = "SYM") then
    Some (set_show_pz (negb (show_pz self)) self)
  else if bool_decide (flag = "GEO") then
    Some (set_show_coast (negb (show_coast self)) self)
  else if bool_decide (flag = "FIR") then
    Some (set_show_fir (negb (show_fir self)) self)
  else if bool_decide (flag = "APT") then
    Some (set_show_apt (py_not (show_apt self)) self)
  else if bool_decide (flag = "VOR" ∨ flag = "WPT" ∨ flag = "WP" ∨ flag = "NAV") then
    Some (set_show_wpt (py_not (show_wpt self)) self)
  else if bool_decide (flag = "SAT") then
    Some (set_show_map (negb (show_map self)) self)
  else if bool_decide (flag = "TRAF") then
    Some (set_show_traf (negb (show_traf self)) self)
  else if bool_decide (flag = "SSD") then
    match args with
    | ids_args ids => Some (show_ssd ids self)
    | switch_args _ _ => None
    end
  else if bool_decide (flag = "FILTERALT") then
    match args with
    | switch_args true rest => Some (set_filteralt (Some rest) self)
    | switch_args false _ => Some (set_filteralt None self)
    | ids_args _ => None
    end
  else Some self.

(** ** guiio.py: the other methods of [GuiClient] *)

(** The [data] of an event: the keyword arguments of [update_poly_data],
    of [defwpt] or of [setflag], or anything else. *)
Inductive payload :=
| poly_data (name : string) (data : option (list float))
| defwpt_data (name : string) (lat lon : float)
| displayflag_data (flag : string) (args : flag_args)
| other_data (raw : string).

(** Emissions of the signals other than [actnodedata_changed], and the call
    of the base class's [send_event]. *)
Inductive signal :=
| event_received_emit (name : string) (data : payload) (sender_id : string)
| stream_received_emit (name : string) (data : payload) (sender_id : string)
| nodes_changed_emit (data : list (string * list string))
| Client_send_event (name : string) (data : option payload) (target : string).

(** The client with both of its traces; of a method that writes to both,
    the definition tells the order. *)
Record GuiClient_io := mkGuiClient_io {
  client : GuiClient;
  signals : list signal
}.

Definition emit (sg : signal) (self : GuiClient_io) : GuiClient_io :=
  mkGuiClient_io (client self) (signals self ++ [sg]).

(** [GuiClient.event]. The mirror of the sender is looked up, or created
    when there is none; the method of [nodeData] works on it in place, and
    the signal carries it. A [data] that does not hold the keyword
    arguments of the method raises [TypeError]. *)
Definition GuiClient_event (name : string) (data : payload) (sender_id : string)
    (self : GuiClient_io) : option GuiClient_io :=
  let c := client self in
  let sender_data := default clear_scen_data (nodedata c !! sender_id) in
  let store (d : nodeData) : GuiClient :=
    mkGuiClient (act c) (<[sender_id := d]> (nodedata c)) (client_calls c) in
  let changed (d : nodeData) (what : list string) : GuiClient_io :=
    mkGuiClient_io
      (do_call (actnodedata_changed_emit sender_id (Some d) what) (store d))
      (signals self) in
  if bool_decide (name = "RESET") then
    Some (changed clear_scen_data UPDATE_ALL)
  else if bool_decide (name = "POLY") then
    match data with
    | poly_data n pts =>
        d ← update_poly_data n pts sender_data; Some (changed d ["POLY"])
    | _ => None
    end
  else if bool_decide (name = "DEFWPT") then
    match data with
    | defwpt_data n lat lon => Some (changed (defwpt n lat lon sender_data) ["CUSTWPT"])
    | _ => None
    end
  else if bool_decide (name = "DISPLAYFLAG") then
    match data with
    | displayflag_data flag args =>
        d ← setflag flag args sender_data;
        Some (mkGuiClient_io (store d) (signals self))
    | _ => None
    end
  else
    Some (emit (event_received_emit name data sender_id)
            (mkGuiClient_io (store sender_data) (signals self))).

Definition stream (name : string) (data : payload) (sender_id : string)
    (self : GuiClient_io) : GuiClient_io :=
  emit (stream_received_emit name data sender_id) self.


(** [send_event]: [target or self.act] *)
Definition send_event (name : string) (data : option payload)
    (target : option string) (self : GuiClient_io) : GuiClient_io :=
  let target :=
    match target with
    | Some t => if bool_decide (t = "") then act (client self) else t
    | None => act (client self)
    end in
  emit (Client_send_event name data target) self.

(** [get_nodedata]: [self.nodedata.get(nodeid or self.act, self.default_data)],
    where [default_data] is a [nodeData()] made once for the class. *)
Definition get_nodedata (nodeid : option string) (c : GuiClient) : nodeData :=
  let key :=
    match nodeid with
    | Some n => if bool_decide (n = "") then act c else n
    | None => act c
    end in
  default clear_scen_data (nodedata c !! key).

(** [__init__] *)
Definition GuiClient_init : GuiClient_io :=
  mkGuiClient_io (mkGuiClient "" ∅ []) [].

(** The 5-character fields of a list of [defwpt] calls, one after the
    other. *)
Definition label_fields (calls : list (string * float * float)) : string :=
  foldr (λ c acc, ljust 5 c.1.1 +:+ acc) "" calls.

(** A sequence of [update_poly_data] calls, applied in order. *)
Definition update_poly_seq (calls : list (string * option (list float)))
    (self : nodeData) : option nodeData :=
  foldl (λ s c, s ≫= update_poly_data c.1 c.2) (Some self) calls.

(** A sequence of [show_ssd] calls, applied in order. *)
Definition show_ssd_seq (calls : list (list string)) (self : nodeData) : nodeData :=
  foldl (λ s arg, show_ssd arg s) self calls.

(** A sequence of [actnode(newact)] calls, applied in order. *)
Definition actnode_seq (ids : list string) (self : GuiClient) : GuiClient :=
  foldl (λ c newact, (actnode (Some newact) c).2) self ids.

(** The number of subscriptions of [node_id] to [topic] that a trace leaves
    open: each [subscribe] adds one, each [unsubscribe] takes one away. *)
Definition subscriptions (topic node_id : string) (calls : list client_call) : Z :=
  foldl (λ n c,
           match c with
           | subscribe t i =>
               if bool_decide (t = topic ∧ i = node_id) then (n + 1)%Z else n
           | unsubscribe t i =>
               if bool_decide (t = topic ∧ i = node_id) then (n - 1)%Z else n
           | _ => n
           end) 0%Z calls.

(** The node that is active, and no other, has one subscription open. *)
Definition one_subscription (c : GuiClient) : Prop :=
  ∀ node_id,
    subscriptions "ACDATA" node_id (client_calls c)
    = if bool_decide (node_id = act c ∧ act c ≠ "") then 1%Z else 0%Z.

(** Every mirror of the client has stored lengths that fit its buffer. *)
Definition client_fits (c : GuiClient) : Prop :=
  ∀ node_id d, nodedata c !! node_id = Some d → poly_fits d.

(** The simulated time, the clock and the timestep settings of the engine. *)
Definition time_of (s : Simulation) : Q * Q * Q * Q * Q * Z :=
  (simt s, deltclock s, simtclock s, simdt s, dtmult s, sysdt s).

(** ** Properties of the sequence primitives *)

Section seq_lemmas.
Context {A : Type}.
Implicit Types (buf l vals : list A) (idxs : list nat).

Lemma assign_at_length buf idxs vals :
  length (assign_at buf idxs vals) = length buf.
Proof.
  revert buf vals.
  induction idxs as [|i idxs IH]; intros buf [|v vals]; simpl; try done.
  by rewrite IH, length_insert.
Qed.

Lemma assign_at_lookup_notin buf idxs vals i :
  i ∉ idxs → assign_at buf idxs vals !! i = buf !! i.
Proof.
  revert buf vals.
  induction idxs as [|i0 idxs IH]; intros buf [|v vals] Hi; simpl; try done.
  apply not_elem_of_cons in Hi as [Hne Hi].
  rewrite IH by done. by apply list_lookup_insert_ne.
Qed.

Lemma assign_at_lookup_in buf idxs vals j i :
  NoDup idxs → length idxs = length vals → idxs !! j = Some i →
  i < length buf → assign_at buf idxs vals !! i = vals !! j.
Proof.
  revert buf vals j.
  induction idxs as [|i0 idxs IH]; intros buf [|v vals] j Hnd Hlen Hj Hi;
    simpl in *; try done.
  apply NoDup_cons in Hnd as [Hnotin Hnd].
  destruct j as [|j]; simpl in *.
  - injection Hj as ->.
    rewrite assign_at_lookup_notin by done.
    by apply list_lookup_insert_eq.
  - apply IH; try done; [lia|]. by rewrite length_insert.
Qed.

Lemma omap_lookup_length l idxs :
  Forall (λ i, i < length l) idxs →
  length (omap (λ i, l !! i) idxs) = length idxs.
Proof.
  induction 1 as [|i idxs Hi _ IH]; csimpl; [done|].
  destruct (lookup_lt_is_Some_2 l i Hi) as [x ->]. csimpl. by f_equal.
Qed.

Lemma omap_lookup_lookup l idxs j :
  Forall (λ i, i < length l) idxs →
  omap (λ i, l !! i) idxs !! j = idxs !! j ≫= (λ i, l !! i).
Proof.
  intros Hall. revert j. induction Hall as [|i idxs Hi _ IH]; intros j; csimpl; [done|].
  destruct (lookup_lt_is_Some_2 l i Hi) as [x Hx]. rewrite Hx. csimpl.
  destruct j as [|j]; csimpl; [done|]. apply IH.
Qed.
End seq_lemmas.


Lemma strided_length lo step n : length (strided lo step n) = n.
Proof. unfold strided. by rewrite length_fmap, length_seq. Qed.

Lemma strided_lookup lo step n j :
  j < n → strided lo step n !! j = Some (lo + j * step).
Proof.
  intros Hj. unfold strided. rewrite list_lookup_fmap, lookup_seq_lt by done. done.
Qed.

Lemma elem_of_strided lo step n i :
  i ∈ strided lo step n ↔ ∃ j, j < n ∧ i = lo + j * step.
Proof.
  unfold strided. rewrite list_elem_of_fmap. split.
  - intros (j & -> & Hj). apply elem_of_seq in Hj. exists j. split; [lia|done].
  - intros (j & Hj & ->). exists j. split; [done|]. apply elem_of_seq. lia.
Qed.

Lemma strided_NoDup lo step n : 0 < step → NoDup (strided lo step n).
Proof.
  intros Hstep. unfold strided. apply NoDup_fmap_2_strong; [|apply NoDup_seq].
  intros j1 j2 _ _ Heq. nia.
Qed.

Lemma slice_indices_strided len start stop step lo n :
  0 < step →
  (n = 0 ∨ from_option (adjust_index len) 0 start = lo) →
  n * step ≤ from_option (adjust_index len) len stop
             - from_option (adjust_index len) 0 start + (step - 1) < (n + 1) * step →
  slice_indices len start stop step = strided lo step n.
Proof.
  intros Hstep Hlo Hn. unfold slice_indices, strided.
  set (lo0 := from_option (adjust_index len) 0 start) in *.
  set (hi := from_option (adjust_index len) len stop) in *.
  assert ((hi - lo0 + (step - 1)) / step = n) as ->.
  { symmetry. apply (Nat.div_unique _ _ _ (hi - lo0 + (step - 1) - n * step)); lia. }
  destruct Hlo as [-> | ->]; done.
Qed.

Section slice_lemmas.
Context {A : Type}.
Implicit Types (buf l vals : list A).

Lemma setslice_strided buf start stop step vals lo n :
  slice_indices (length buf) start stop step = strided lo step n →
  length vals = n → 0 < step →
  (∀ j, j < n → lo + j * step < length buf) →
  ∃ buf', setslice buf start stop step vals = Some buf' ∧
    length buf' = length buf ∧
    (∀ j, j < n → buf' !! (lo + j * step) = vals !! j) ∧
    (∀ i, (∀ j, j < n → i ≠ lo + j * step) → buf' !! i = buf !! i).
Proof.
  intros Hidx Hlen Hstep Hin. unfold setslice. rewrite Hidx, strided_length.
  rewrite decide_True by done.
  eexists. split; [done|]. split; [apply assign_at_length|]. split.
  - intros j Hj. apply assign_at_lookup_in; auto using strided_NoDup, strided_lookup.
    by rewrite strided_length.
  - intros i Hi. apply assign_at_lookup_notin.
    rewrite elem_of_strided. intros (j & Hj & ->). by apply (Hi j).
Qed.

Lemma getslice_strided l start stop step lo n :
  slice_indices (length l) start stop step = strided lo step n →
  (∀ j, j < n → lo + j * step < length l) →
  length (getslice l start stop step) = n ∧
  ∀ j, j < n → getslice l start stop step !! j = l !! (lo + j * step).
Proof.
  intros Hidx Hin. unfold getslice. rewrite Hidx.
  assert (Forall (λ i, i < length l) (strided lo step n)) as Hall.
  { apply Forall_forall. intros i (j & Hj & ->)%elem_of_strided. auto. }
  split.
  - by rewrite omap_lookup_length, strided_length.
  - intros j Hj. by rewrite omap_lookup_lookup, strided_lookup.
Qed.
End slice_lemmas.

Ltac slice_arith :=
  simpl from_option; unfold adjust_index; repeat case_match; lia.


(** ** guiio.py: the segment buffer of [update_poly_data] *)

Lemma np_empty_length n : length (np_empty n) = n.
Proof. unfold np_empty. by rewrite length_fmap, length_seq. Qed.

(** For [2 * P] input scalars every slice assignment of [update_poly_data]
    has matching shapes, and the buffer built holds, for each point [k], the
    segment from point [k] to point [(k + 1) mod P]. *)
Lemma segment_buffer_spec (data : list float) (P : nat) :
  length data = 2 * P →
  ∃ newbuf, segment_buffer data = Some newbuf ∧ length newbuf = 4 * P ∧
    ∀ k, k < P →
      newbuf !! (4 * k) = float32 <$> data !! (2 * k) ∧
      newbuf !! (4 * k + 1) = float32 <$> data !! (2 * k + 1) ∧
      newbuf !! (4 * k + 2) = float32 <$> data !! (2 * ((k + 1) mod P)) ∧
      newbuf !! (4 * k + 3) = float32 <$> data !! (2 * ((k + 1) mod P) + 1).
Proof.
  intros Hlen. destruct P as [|p].
  { destruct data; [|done]. exists []. repeat split; try done; lia. }
  unfold segment_buffer.
  pose proof (np_empty_length (2 * length data)) as Hb0.
  destruct (getslice_strided data (Some 0%Z) None 2 0 (S p)) as [Hl0 Hd0].
  { rewrite Hlen. apply slice_indices_strided; [lia| |]; slice_arith. }
  { intros; lia. }
  destruct (getslice_strided data (Some 1%Z) None 2 1 (S p)) as [Hl1 Hd1].
  { rewrite Hlen. apply slice_indices_strided; [lia| |]; slice_arith. }
  { intros; lia. }
  destruct (getslice_strided data (Some 2%Z) None 2 2 p) as [Hl2 Hd2].
  { rewrite Hlen. apply slice_indices_strided; [lia| |]; slice_arith. }
  { intros; lia. }
  destruct (getslice_strided data (Some 3%Z) None 2 3 p) as [Hl3 Hd3].
  { rewrite Hlen. apply slice_indices_strided; [lia| |]; destruct p; slice_arith. }
  { intros; lia. }
  destruct (getslice_strided data (Some 0%Z) (Some 2%Z) 1 0 2) as [Hl4 Hd4].
  { rewrite Hlen. apply slice_indices_strided; [lia| |]; slice_arith. }
  { intros; lia. }
  destruct (setslice_strided (np_empty (2 * length data)) (Some 0%Z) None 4
              (float32 <$> getslice data (Some 0%Z) None 2) 0 (S p))
    as (b1 & -> & Hb1 & Hin1 & Hout1).
  { rewrite Hb0, Hlen. apply slice_indices_strided; [lia| |]; slice_arith. }
  { by rewrite length_fmap. }
  { lia. }
  { intros; lia. }
  rewrite Hb0 in Hb1. cbn [mbind option_bind].
  destruct (setslice_strided b1 (Some 1%Z) None 4
              (float32 <$> getslice data (Some 1%Z) None 2) 1 (S p))
    as (b2 & -> & Hb2 & Hin2 & Hout2).
  { rewrite Hb1, Hlen. apply slice_indices_strided; [lia| |]; slice_arith. }
  { by rewrite length_fmap. }
  { lia. }
  { intros; lia. }
  rewrite Hb1 in Hb2. cbn [mbind option_bind].
  destruct (setslice_strided b2 (Some 2%Z) (Some (-2)%Z) 4
              (float32 <$> getslice data (Some 2%Z) None 2) 2 p)
    as (b3 & -> & Hb3 & Hin3 & Hout3).
  { rewrite Hb2, Hlen. apply slice_indices_strided; [lia| |]; slice_arith. }
  { by rewrite length_fmap. }
  { lia. }
  { intros; lia. }
  rewrite Hb2 in Hb3. cbn [mbind option_bind].
  destruct (setslice_strided b3 (Some 3%Z) (Some (-3)%Z) 4
              (float32 <$> getslice data (Some 3%Z) None 2) 3 p)
    as (b4 & -> & Hb4 & Hin4 & Hout4).
  { rewrite Hb3, Hlen. apply slice_indices_strided; [lia| |]; destruct p; slice_arith. }
  { by rewrite length_fmap. }
  { lia. }
  { intros; lia. }
  rewrite Hb3 in Hb4. cbn [mbind option_bind].
  destruct (setslice_strided b4 (Some (-2)%Z) None 1
              (float32 <$> getslice data (Some 0%Z) (Some 2%Z) 1) (4 * S p - 2) 2)
    as (b5 & -> & Hb5 & Hin5 & Hout5).
  { rewrite Hb4, Hlen. apply slice_indices_strided; [lia| |]; slice_arith. }
  { by rewrite length_fmap. }
  { lia. }
  { intros; lia. }
  rewrite Hb4 in Hb5.
  exists b5. split; [done|]. split; [lia|].
  intros k Hk.
  assert (k < p ∧ (k + 1) mod S p = k + 1 ∨ k = p ∧ (k + 1) mod S p = 0) as Hcase.
  { destruct (decide (k = p)) as [->|Hne].
    - right. split; [done|]. replace (p + 1) with (S p) by lia. apply Nat.Div0.mod_same.
    - left. split; [lia|]. apply Nat.mod_small. lia. }
  repeat split.
  - rewrite Hout5, Hout4, Hout3, Hout2 by (intros; lia).
    replace (4 * k) with (0 + k * 4) by lia.
    rewrite Hin1, list_lookup_fmap, Hd0 by done. do 2 f_equal. lia.
  - rewrite Hout5, Hout4, Hout3 by (intros; lia).
    replace (4 * k + 1) with (1 + k * 4) by lia.
    rewrite Hin2, list_lookup_fmap, Hd1 by done. do 2 f_equal. lia.
  - destruct Hcase as [[Hlt ->] | [-> ->]].
    + rewrite Hout5, Hout4 by (intros; lia).
      replace (4 * k + 2) with (2 + k * 4) by lia.
      rewrite Hin3, list_lookup_fmap, Hd2 by done. do 2 f_equal. lia.
    + replace (4 * p + 2) with (4 * S p - 2 + 0 * 1) by lia.
      rewrite Hin5, list_lookup_fmap, Hd4 by lia. done.
  - destruct Hcase as [[Hlt ->] | [-> ->]].
    + rewrite Hout5 by (intros; lia).
      replace (4 * k + 3) with (3 + k * 4) by lia.
      rewrite Hin4, list_lookup_fmap, Hd3 by done. do 2 f_equal. lia.
    + replace (4 * p + 3) with (4 * S p - 2 + 1 * 1) by lia.
      rewrite Hin5, list_lookup_fmap, Hd4 by lia. done.
Qed.

(** C2. For [2 * P] alternating lat, lon scalars [update_poly_data] appends
    to the buffer left by the removal step a buffer of exactly [4 * P]
    floats whose entries [4k], [4k+1] are point [k] and whose entries
    [4k+2], [4k+3] are point [(k+1) mod P], each converted to float32, and
    records the name with the offset and the length [4 * P]; for the three
    points [(a,b)], [(c,d)], [(e,f)] the buffer is
    [a,b,c,d, c,d,e,f, e,f,a,b]. *)
Theorem update_poly_data_segments :
  (∀ (name : string) (data : list float) (P : nat) (self self1 : nodeData),
     length data = 2 * P →
     remove_poly name self = Some self1 →
     ∃ newbuf,
       update_poly_data name (Some data) self
       = Some (set_poly (<[name := (length (polydata self1), 4 * P)]> (polynames self1))
                 (polydata self1 ++ newbuf) self1) ∧
       length newbuf = 4 * P ∧
       ∀ k, k < P →
         newbuf !! (4 * k) = float32 <$> data !! (2 * k) ∧
         newbuf !! (4 * k + 1) = float32 <$> data !! (2 * k + 1) ∧
         newbuf !! (4 * k + 2) = float32 <$> data !! (2 * ((k + 1) mod P)) ∧
         newbuf !! (4 * k + 3) = float32 <$> data !! (2 * ((k + 1) mod P) + 1)) ∧
  (∀ a b c d e f : float,
     polydata <$> update_poly_data "A" (Some [a; b; c; d; e; f]) clear_scen_data
     = Some (float32 <$> [a; b; c; d; c; d; e; f; e; f; a; b])).
Proof.
  split.
  - intros name data P self self1 Hlen Hrem.
    destruct (segment_buffer_spec data P Hlen) as (newbuf & Hbuf & Hlen' & Hk).
    exists newbuf. split; [|done].
    unfold update_poly_data, append_poly. rewrite Hrem. cbn [mbind option_bind].
    rewrite Hbuf. cbn [mbind option_bind].
    replace (2 * length data) with (4 * P) by lia. done.
  - intros a b c d e f. reflexivity.
Qed.

(** ** guiio.py: removal of a stored polygon *)

Lemma drop_indices_ext {A} (arr : list A) k obj1 obj2 :
  (∀ j, k ≤ j → j ∈ obj1 ↔ j ∈ obj2) →
  drop_indices k obj1 arr = drop_indices k obj2 arr.
Proof.
  revert k. induction arr as [|x arr IH]; intros k Hobj; cbn [drop_indices]; [done|].
  rewrite (bool_decide_ext (k ∈ obj1) (k ∈ obj2)) by (apply Hobj; lia).
  rewrite (IH (S k)) by (intros j Hj; apply Hobj; lia). done.
Qed.

Lemma drop_indices_nil {A} (arr : list A) k : drop_indices k [] arr = arr.
Proof.
  revert k. induction arr as [|x arr IH]; intros k; cbn [drop_indices]; [done|].
  rewrite bool_decide_eq_false_2 by apply not_elem_of_nil. by rewrite IH.
Qed.

Lemma drop_indices_seq {A} (arr : list A) i n :
  drop_indices i (seq i n) arr = drop n arr.
Proof.
  revert i n. induction arr as [|x arr IH]; intros i [|n]; try done.
  - apply drop_indices_nil.
  - cbn [drop_indices seq drop].
    rewrite bool_decide_eq_true_2 by apply list_elem_of_here.
    rewrite <- (IH (S i) n). apply drop_indices_ext.
    intros j Hj. rewrite elem_of_cons. split; [|auto]. intros [->|]; [lia|done].
Qed.

(** Deleting the positions [range(a, b)] keeps what is before [a] and what
    is from [b] on. *)
Lemma drop_indices_range {A} (arr : list A) k a n :
  k ≤ a →
  drop_indices k (seq a n) arr = take (a - k) arr ++ drop (a - k + n) arr.
Proof.
  revert k. induction arr as [|x arr IH]; intros k Hk.
  { by rewrite take_nil, drop_nil. }
  destruct (decide (k = a)) as [->|Hne].
  - rewrite drop_indices_seq. by replace (a - a) with 0 by lia.
  - cbn [drop_indices]. rewrite bool_decide_eq_false_2.
    + rewrite (IH (S k)) by lia.
      replace (a - k) with (S (a - S k)) by lia. done.
    + intros Hin%elem_of_seq. lia.
Qed.

Lemma np_delete_range {A} (arr : list A) a b :
  b ≤ length arr ∨ b ≤ a →
  np_delete arr (py_range a b) = Some (take a arr ++ drop (a + (b - a)) arr).
Proof.
  intros Hb. unfold np_delete, py_range. rewrite decide_True.
  - rewrite drop_indices_range by lia. by rewrite Nat.sub_0_r.
  - apply Forall_forall. intros i Hi%elem_of_seq. lia.
Qed.

(** The stored pair is [(offset, length)], and [range(offset, length)] is
    what gets deleted: the positions from [offset] up to [length], not the
    [length] positions from [offset] on. *)
Lemma remove_poly_deletes_range (name : string) (a b : nat) (self : nodeData) :
  polynames self !! name = Some (a, b) →
  b ≤ length (polydata self) ∨ b ≤ a →
  remove_poly name self
  = Some (set_poly (delete name (polynames self))
            (take a (polydata self) ++ drop (a + (b - a)) (polydata self)) self).
Proof.
  intros Hname Hb. unfold remove_poly. rewrite Hname.
  by rewrite np_delete_range.
Qed.

(** A polygon stored at offset [0] loses exactly its own slice ... *)
Lemma remove_poly_at_offset_0 (name : string) (n : nat) (self : nodeData) :
  polynames self !! name = Some (0, n) →
  n ≤ length (polydata self) →
  remove_poly name self
  = Some (set_poly (delete name (polynames self)) (drop n (polydata self)) self).
Proof.
  intros Hname Hn. unfold remove_poly. rewrite Hname.
  rewrite np_delete_range by auto. cbn [mbind option_bind].
  by rewrite Nat.sub_0_r.
Qed.

(** ... while for a polygon whose offset is at least its length nothing is
    deleted from the buffer, and only the name is dropped. *)
Lemma remove_poly_offset_ge_length (name : string) (a b : nat) (self : nodeData) :
  polynames self !! name = Some (a, b) →
  b ≤ a →
  remove_poly name self
  = Some (set_poly (delete name (polynames self)) (polydata self) self).
Proof.
  intros Hname Hab. unfold remove_poly. rewrite Hname.
  rewrite np_delete_range by auto. cbn [mbind option_bind].
  replace (a + (b - a)) with a by lia. by rewrite take_drop.
Qed.

(** ** guiio.py: [update_poly_data] raises in no reachable state *)

Lemma stored_length_insert (names : gmap string (nat * nat)) name v :
  names !! name = None →
  stored_length (<[name := v]> names) = v.2 + stored_length names.
Proof.
  intros Hname. unfold stored_length.
  rewrite map_fold_insert_L; [done| |done]. intros; lia.
Qed.

Lemma stored_length_delete (names : gmap string (nat * nat)) name v :
  names !! name = Some v →
  stored_length names = v.2 + stored_length (delete name names).
Proof.
  intros Hname. unfold stored_length.
  rewrite (map_fold_delete_L _ _ name v); [done| |done]. intros; lia.
Qed.

Lemma clear_scen_data_fits : poly_fits clear_scen_data.
Proof.
  unfold poly_fits, stored_length, clear_scen_data. cbn [polynames polydata].
  by rewrite map_fold_empty.
Qed.

Lemma remove_poly_fits (name : string) (self : nodeData) :
  poly_fits self →
  ∃ self1, remove_poly name self = Some self1 ∧ poly_fits self1 ∧
           polynames self1 !! name = None.
Proof.
  unfold poly_fits, remove_poly. intros Hfits.
  destruct (polynames self !! name) as [[a b]|] eqn:Hname; [|by eauto].
  pose proof (stored_length_delete _ _ _ Hname) as Hsum. cbn [snd] in Hsum.
  rewrite np_delete_range by lia. cbn [mbind option_bind].
  eexists. split; [done|]. cbn [set_poly polynames polydata].
  split; [|apply lookup_delete_eq].
  rewrite length_app, length_take, length_drop. lia.
Qed.

Lemma update_poly_data_fits (name : string) (data : option (list float))
    (self : nodeData) :
  poly_fits self →
  (∀ d, data = Some d → ∃ P, length d = 2 * P) →
  ∃ self', update_poly_data name data self = Some self' ∧ poly_fits self'.
Proof.
  intros Hfits Hdata.
  destruct (remove_poly_fits name self Hfits) as (self1 & Hrem & Hfits1 & Hnone).
  unfold update_poly_data. rewrite Hrem. cbn [mbind option_bind].
  destruct data as [d|]; [|by eauto].
  destruct (Hdata d eq_refl) as [P HP].
  destruct (segment_buffer_spec d P HP) as (newbuf & Hbuf & Hlen & _).
  unfold append_poly. rewrite Hbuf. cbn [mbind option_bind].
  eexists. split; [done|]. unfold poly_fits in *.
  cbn [set_poly polynames polydata].
  rewrite stored_length_insert by done. cbn [snd].
  rewrite length_app. lia.
Qed.

(** ** guiio.py: [show_ssd] *)

(** C8. When [arg] holds none of ALL, CONFLICTS and OFF, [show_ssd]
    replaces [ssd_ownship] by its symmetric difference with the set of the
    ids in [arg] and leaves [ssd_all] and [ssd_conflicts] as they are; from
    [{AB1}], [show_ssd [AB1; CD2]] gives [{CD2}]. *)
Theorem show_ssd_symmetric_difference :
  (∀ (arg : list string) (self : nodeData),
     "ALL" ∉ arg → "CONFLICTS" ∉ arg → "OFF" ∉ arg →
     ssd_ownship (show_ssd arg self)
     = (ssd_ownship self ∖ list_to_set arg)
         ∪ (list_to_set arg ∖ ssd_ownship self) ∧
     (∀ x, x ∈ ssd_ownship (show_ssd arg self) ↔
           ((x ∈ ssd_ownship self ∧ x ∉ arg)
            ∨ ((x ∉ ssd_ownship self) ∧ x ∈ arg))) ∧
     ssd_all (show_ssd arg self) = ssd_all self ∧
     ssd_conflicts (show_ssd arg self) = ssd_conflicts self) ∧
  (∀ self : nodeData,
     ssd_ownship self = {["AB1"]} →
     ssd_ownship (show_ssd ["AB1"; "CD2"] self) = {["CD2"]}).
Proof using Type.
  clear float32 uninit translvl_default.
  assert (∀ (arg : list string) (self : nodeData),
            "ALL" ∉ arg → "CONFLICTS" ∉ arg → "OFF" ∉ arg →
            show_ssd arg self
            = set_ssd (ssd_all self) (ssd_conflicts self)
                ((ssd_ownship self ∪ list_to_set arg)
                   ∖ (ssd_ownship self ∩ list_to_set arg)) self) as Hshow.
  { intros arg self Hall Hconf Hoff. unfold show_ssd.
    by rewrite !bool_decide_eq_false_2. }
  split.
  - intros arg self Hall Hconf Hoff. rewrite Hshow by done.
    cbn [set_ssd ssd_ownship ssd_all ssd_conflicts].
    split; [|split; [|done]].
    + apply set_eq. intros x.
      rewrite !elem_of_union, !elem_of_difference, elem_of_union,
        elem_of_intersection. tauto.
    + intros x. rewrite elem_of_difference, elem_of_union, elem_of_intersection,
        elem_of_list_to_set. tauto.
  - intros self Hown.
    rewrite Hshow by (by apply (bool_decide_unpack _); vm_compute).
    cbn [set_ssd ssd_ownship]. rewrite Hown. apply set_eq. intros x.
    cbn [list_to_set]. set_solver.
Qed.

(** ** guiio.py: [defwpt] *)

Lemma string_length_app (s1 s2 : string) :
  String.length (s1 +:+ s2) = String.length s1 + String.length s2.
Proof.
  induction s1 as [|c s1 IH]; [done|].
  change (S (String.length (s1 +:+ s2)) = S (String.length s1 + String.length s2)).
  by rewrite IH.
Qed.

Lemma spaces_length n : String.length (spaces n) = n.
Proof. induction n as [|n IH]; [done|]. simpl. by rewrite IH. Qed.

(** The field appended by [defwpt] is as long as the longer of the name
    and the width. *)
Lemma ljust_length width s :
  String.length (ljust width s) = Nat.max width (String.length s).
Proof. unfold ljust. rewrite string_length_app, spaces_length. lia. Qed.

Lemma defwpt_lengths (name : string) (lat lon : float) (self : nodeData) :
  String.length (custwplbl (defwpt name lat lon self))
  = String.length (custwplbl self) + Nat.max 5 (String.length name) ∧
  length (custwplat (defwpt name lat lon self)) = S (length (custwplat self)) ∧
  length (custwplon (defwpt name lat lon self)) = S (length (custwplon self)).
Proof.
  unfold defwpt. cbn [set_custwp custwplbl custwplat custwplon].
  rewrite string_length_app, ljust_length, !length_app. simpl. lia.
Qed.

(** C9, amended. For a name of at most 5 characters [defwpt] appends one
    5-character field, the name followed by spaces, to the label string and
    one element to each of the latitude and longitude arrays; so after any
    sequence of [defwpt] calls with such names the length of the label
    string is 5 times the number of stored waypoints. *)
Theorem defwpt_fixed_width :
  (∀ (name : string) (lat lon : float) (self : nodeData),
     String.length name ≤ 5 →
     custwplbl (defwpt name lat lon self)
     = custwplbl self +:+ (name +:+ spaces (5 - String.length name)) ∧
     String.length (name +:+ spaces (5 - String.length name)) = 5 ∧
     custwplat (defwpt name lat lon self) = custwplat self ++ [float32 lat] ∧
     custwplon (defwpt name lat lon self) = custwplon self ++ [float32 lon]) ∧
  (∀ (calls : list (string * float * float)) (self : nodeData),
     Forall (λ c, String.length c.1.1 ≤ 5) calls →
     String.length (custwplbl self) = 5 * length (custwplat self) →
     length (custwplon self) = length (custwplat self) →
     String.length (custwplbl (defwpt_seq calls self))
     = 5 * length (custwplat (defwpt_seq calls self)) ∧
     length (custwplat (defwpt_seq calls self))
     = length (custwplat self) + length calls ∧
     length (custwplon (defwpt_seq calls self))
     = length (custwplat (defwpt_seq calls self))) ∧
  (∀ calls : list (string * float * float),
     Forall (λ c, String.length c.1.1 ≤ 5) calls →
     String.length (custwplbl (defwpt_seq calls clear_scen_data)) = 5 * length calls).
Proof.
  assert (∀ (calls : list (string * float * float)) (self : nodeData),
     Forall (λ c, String.length c.1.1 ≤ 5) calls →
     String.length (custwplbl self) = 5 * length (custwplat self) →
     length (custwplon self) = length (custwplat self) →
     String.length (custwplbl (defwpt_seq calls self))
     = 5 * length (custwplat (defwpt_seq calls self)) ∧
     length (custwplat (defwpt_seq calls self))
     = length (custwplat self) + length calls ∧
     length (custwplon (defwpt_seq calls self))
     = length (custwplat (defwpt_seq calls self))) as Hseq.
  { intros calls. induction calls as [|[[name lat] lon] calls IH];
      intros self Hnames Hlbl Hlon.
    - cbn [defwpt_seq foldl length]. lia.
    - apply Forall_cons in Hnames as [Hname Hnames]. cbn [fst snd] in Hname.
      destruct (defwpt_lengths name lat lon self) as (Hl1 & Hl2 & Hl3).
      change (defwpt_seq ((name, lat, lon) :: calls) self)
        with (defwpt_seq calls (defwpt name lat lon self)).
      destruct (IH (defwpt name lat lon self)) as (IH1 & IH2 & IH3);
        [done | lia | lia |].
      cbn [length]. lia. }
  split; [|split; [exact Hseq|]].
  - intros name lat lon self Hname. unfold defwpt, ljust.
    cbn [set_custwp custwplbl custwplat custwplon].
    rewrite string_length_app, spaces_length. repeat split; try done. lia.
  - intros calls Hnames.
    destruct (Hseq calls clear_scen_data Hnames) as (H1 & H2 & _); [done..|].
    rewrite H1, H2. done.
Qed.

(** ** guiio.py: [GuiClient.actnode] *)

(** C7, amended. [actnode(B)] while a node [A] is active calls
    [unsubscribe("ACDATA", A)] and [subscribe("ACDATA", B)] once each, in
    this order, emits the refresh signal for [B], makes [B] active and
    returns [B]; with [B] the active node itself it does the same (the node
    is unsubscribed and subscribed again, the signal is emitted), the active
    node stays and its id is returned; [actnode()] changes nothing and
    returns the active node. *)
Theorem actnode_subscription (self : GuiClient) :
  (∀ B : string,
     act self ≠ "" →
     actnode (Some B) self
     = (B, mkGuiClient B (nodedata self)
             (client_calls self
                ++ [unsubscribe "ACDATA" (act self);
                    subscribe "ACDATA" B;
                    actnodedata_changed_emit B (nodedata self !! B) UPDATE_ALL]))) ∧
  (act self ≠ "" →
   (actnode (Some (act self)) self).1 = act self ∧
   act (actnode (Some (act self)) self).2 = act self ∧
   nodedata (actnode (Some (act self)) self).2 = nodedata self ∧
   client_calls (actnode (Some (act self)) self).2
   = client_calls self
       ++ [unsubscribe "ACDATA" (act self);
           subscribe "ACDATA" (act self);
           actnodedata_changed_emit (act self) (nodedata self !! act self)
             UPDATE_ALL]) ∧
  actnode None self = (act self, self).
Proof.
  assert (∀ B : string,
     act self ≠ "" →
     actnode (Some B) self
     = (B, mkGuiClient B (nodedata self)
             (client_calls self
                ++ [unsubscribe "ACDATA" (act self);
                    subscribe "ACDATA" B;
                    actnodedata_changed_emit B (nodedata self !! B) UPDATE_ALL]))) as Hsel.
  { intros B Hact. unfold actnode. rewrite bool_decide_eq_true_2 by done.
    unfold do_call, set_act. cbn [act nodedata client_calls].
    by rewrite <- !app_assoc. }
  split; [exact Hsel|]. split; [|done].
  intros Hact. by rewrite Hsel.
Qed.

(** ** simulation.py: arithmetic of the clock and of the timestep *)






Ltac run_method :=
  unfold bind, ret, self_get, self_set, os_clock, ext_do, ext_ask;
  cbn [sim ext trace fst snd].

(** ** simulation.py: [setclock] *)







(** ** simulation.py: range of the clock *)

Lemma reset_spec (w : World) :
  reset w
  = (tt, mkWorld
           (set_ffmode false
              (set_state init (set_simtclock 0 (set_deltclock 0 (set_simt 0 (sim w))))))
           (ext_call scr_reset (ext_call areafilter_reset (ext_call datalog_reset
              (ext_call stack_reset (ext_call traf_reset (ext_call navdb_reset
                 (ext_call plugin_reset (ext w))))))))
           (trace w ++ [plugin_reset; navdb_reset; traf_reset; stack_reset;
                        datalog_reset; areafilter_reset; scr_reset])).
Proof. unfold reset. run_method. by rewrite <- !app_assoc. Qed.



(** ** simulation.py: [setDt] *)


(** ** simulation.py: [batch] and [event] *)

(** C5. [batch] returns what [stack.openfile] returned; when that is
    [True] the batch read with [stack.get_scendata] is sent to the node
    manager, otherwise nothing is sent; in both cases [reset] runs last. *)
Theorem batch_returns_load_result (filename : string) (w : World) :
  let result := openfile_result filename (ext w) in
  let e1 := ext_call (stack_openfile filename) (ext w) in
  let scen := scendata e1 in
  let e2 := ext_call stack_get_scendata e1 in
  let send := manager_sendEvent (BatchEvent scen.1 scen.2) in
  let loaded :=
    mkWorld (sim w) (if is_True result then ext_call send e2 else e2)
      (trace w ++ [stack_openfile filename; stack_get_scendata]
               ++ (if is_True result then [send] else [])) in
  batch filename w = (result, (reset loaded).2) ∧
  trace (batch filename w).2
  = trace w ++ [stack_openfile filename; stack_get_scendata]
            ++ (if is_True result then [send] else [])
            ++ [plugin_reset; navdb_reset; traf_reset; stack_reset;
                datalog_reset; areafilter_reset; scr_reset].
Proof.
  intros result e1 scen e2 send loaded.
  assert (batch filename w = (result, (reset loaded).2)) as Hbatch.
  { unfold batch. rewrite !reset_spec. run_method.
    fold result e1 scen e2 send. subst loaded.
    destruct (is_True result); run_method; rewrite reset_spec; cbn [snd sim ext trace];
      by rewrite <- ?app_assoc. }
  split; [done|]. rewrite Hbatch, reset_spec. cbn [snd trace]. subst loaded. cbn [trace].
  by rewrite <- !app_assoc.
Qed.

(** C10. A quit event clears [running] and [event] returns [False], the
    value [event_processed] was initialised with; a stack-text event and a
    batch event return [True]. *)
Theorem event_quit_returns_False (w : World) :
  event SimQuitEvent w
  = (false, mkWorld (set_running false (sim w)) (ext w) (trace w)) ∧
  running (sim (event SimQuitEvent w).2) = false ∧
  (∀ cmdtext sender_id : string,
     (event (StackTextEvent cmdtext sender_id) w).1 = true) ∧
  (∀ (scentime : list Q) (scencmd : list string),
     (event (BatchEvent scentime scencmd) w).1 = true).
Proof.
  split_and!; [done..|].
  intros scentime scencmd. unfold event, start. run_method.
  rewrite reset_spec. by cbn [sim set_ffmode ffmode fst snd].
Qed.

(** ** guiio.py: further properties of [update_poly_data] *)

Lemma setslice_length {A} (buf buf' : list A) start stop step vals :
  setslice buf start stop step vals = Some buf' → length buf' = length buf.
Proof.
  unfold setslice. intros Hset. case_decide.
  - injection Hset as <-. apply assign_at_length.
  - destruct vals as [|v [|??]]; [done| |done].
    injection Hset as <-. apply assign_at_length.
Qed.

Lemma segment_buffer_length (data newbuf : list float) :
  segment_buffer data = Some newbuf → length newbuf = 2 * length data.
Proof.
  unfold segment_buffer. intros Hbuf.
  apply bind_Some in Hbuf as (b1 & H1 & Hbuf).
  apply bind_Some in Hbuf as (b2 & H2 & Hbuf).
  apply bind_Some in Hbuf as (b3 & H3 & Hbuf).
  apply bind_Some in Hbuf as (b4 & H4 & H5).
  apply setslice_length in H1, H2, H3, H4, H5.
  rewrite np_empty_length in H1. congruence.
Qed.

(** Whenever [update_poly_data] returns, the stored lengths still fit the
    buffer. *)
Lemma update_poly_data_keeps_fits (name : string) (data : option (list float))
    (self self' : nodeData) :
  poly_fits self → update_poly_data name data self = Some self' → poly_fits self'.
Proof.
  intros Hfits Hupd.
  destruct (remove_poly_fits name self Hfits) as (self1 & Hrem & Hfits1 & Hnone).
  unfold update_poly_data in Hupd. rewrite Hrem in Hupd.
  cbn [mbind option_bind] in Hupd.
  destruct data as [d|]; [|by injection Hupd as <-].
  unfold append_poly in Hupd.
  apply bind_Some in Hupd as (newbuf & Hbuf & Hupd). injection Hupd as <-.
  apply segment_buffer_length in Hbuf.
  unfold poly_fits in *. cbn [set_poly polynames polydata].
  rewrite stored_length_insert by done. cbn [snd]. rewrite length_app. lia.
Qed.

(** X1. From a state in which the stored lengths fit the buffer, a fresh
    [nodeData] among them, no sequence of [update_poly_data] calls whose
    point lists have an even number of scalars raises: the deletion never
    reaches beyond the buffer, and the slice assignments have matching
    shapes. *)
Theorem update_poly_seq_never_raises
    (calls : list (string * option (list float))) (self : nodeData) :
  poly_fits self →
  Forall (λ c, ∀ d, c.2 = Some d → ∃ P, length d = 2 * P) calls →
  ∃ self', update_poly_seq calls self = Some self' ∧ poly_fits self'.
Proof.
  unfold update_poly_seq. intros Hfits Hcalls. revert self Hfits.
  induction Hcalls as [|[name data] calls Hdata _ IH]; intros self Hfits.
  - by exists self.
  - cbn [foldl mbind option_bind fst snd] in *.
    destruct (update_poly_data_fits name data self Hfits Hdata)
      as (self1 & -> & Hfits1).
    by apply IH.
Qed.

(** X2. On an empty buffer, storing a polygon and deleting it again gives
    back the [nodeData] as it was. *)
Theorem update_poly_data_add_delete (name : string) (data : list float)
    (P : nat) (self : nodeData) :
  length data = 2 * P →
  polydata self = [] →
  polynames self !! name = None →
  update_poly_data name (Some data) self ≫= update_poly_data name None
  = Some self.
Proof.
  intros Hlen Hempty Hnone.
  destruct (segment_buffer_spec data P Hlen) as (newbuf & Hbuf & Hlen' & _).
  assert (update_poly_data name (Some data) self
          = Some (set_poly (<[name := (0, 2 * length data)]> (polynames self))
                    newbuf self)) as ->.
  { unfold update_poly_data, remove_poly, append_poly. rewrite Hnone.
    cbn [mbind option_bind]. rewrite Hbuf, Hempty. done. }
  cbn [mbind option_bind].
  unfold update_poly_data, remove_poly. cbn [set_poly polynames polydata].
  rewrite lookup_insert_eq, np_delete_range by lia.
  cbn [mbind option_bind set_poly polynames polydata].
  rewrite delete_insert_id by done.
  replace (0 + (2 * length data - 0)) with (length newbuf) by lia.
  rewrite drop_all, take_0. cbn [app].
  destruct self. cbn [polydata] in Hempty. by subst.
Qed.

(** X3. A point list with an odd number of scalars, three excepted, makes
    [update_poly_data] raise: the longitudes [data[1::2]] are one fewer than
    the positions [newbuf[1::4]] they are assigned to. (With three scalars
    the single longitude is broadcast and the call returns.) *)
Theorem update_poly_data_odd_length (name : string) (data : list float)
    (P : nat) (self : nodeData) :
  length data = 2 * P + 1 →
  P ≠ 1 →
  update_poly_data name (Some data) self = None.
Proof.
  intros Hlen HP. unfold update_poly_data.
  destruct (remove_poly name self) as [self1|]; [|done].
  cbn [mbind option_bind]. unfold append_poly.
  assert (segment_buffer data = None) as ->; [|done].
  unfold segment_buffer.
  pose proof (np_empty_length (2 * length data)) as Hb0.
  destruct (getslice_strided data (Some 0%Z) None 2 0 (S P)) as [Hl0 _].
  { rewrite Hlen. apply slice_indices_strided; [lia| |]; slice_arith. }
  { intros; lia. }
  destruct (getslice_strided data (Some 1%Z) None 2 1 P) as [Hl1 _].
  { rewrite Hlen. apply slice_indices_strided; [lia| |]; slice_arith. }
  { intros; lia. }
  destruct (setslice_strided (np_empty (2 * length data)) (Some 0%Z) None 4
              (float32 <$> getslice data (Some 0%Z) None 2) 0 (S P))
    as (b1 & -> & Hb1 & _ & _).
  { rewrite Hb0, Hlen. apply slice_indices_strided; [lia| |]; slice_arith. }
  { by rewrite length_fmap. }
  { lia. }
  { intros; lia. }
  rewrite Hb0 in Hb1. cbn [mbind option_bind].
  assert (setslice b1 (Some 1%Z) None 4
            (float32 <$> getslice data (Some 1%Z) None 2) = None) as ->; [|done].
  unfold setslice.
  rewrite (slice_indices_strided _ _ _ _ 1 (S P)), strided_length, length_fmap, Hl1;
    [|lia|rewrite Hb1, Hlen; slice_arith..].
  rewrite decide_False by lia.
  destruct (float32 <$> getslice data (Some 1%Z) None 2) as [|v [|??]] eqn:Hvals;
    try done.
  apply (f_equal length) in Hvals. rewrite length_fmap, Hl1 in Hvals.
  simpl in Hvals. lia.
Qed.

(** ** guiio.py: further properties of [show_ssd] and [setflag] *)

Lemma show_ssd_ids (arg : list string) (self : nodeData) :
  "ALL" ∉ arg → "CONFLICTS" ∉ arg → "OFF" ∉ arg →
  show_ssd arg self
  = set_ssd (ssd_all self) (ssd_conflicts self)
      ((ssd_ownship self ∪ list_to_set arg)
         ∖ (ssd_ownship self ∩ list_to_set arg)) self.
Proof.
  intros Hall Hconf Hoff. unfold show_ssd.
  by rewrite !bool_decide_eq_false_2.
Qed.

Lemma toggle_twice (own ids : gset string) :
  (((own ∪ ids) ∖ (own ∩ ids)) ∪ ids) ∖ (((own ∪ ids) ∖ (own ∩ ids)) ∩ ids)
  = own.
Proof using Type.
  clear float32 uninit translvl_default.
  apply set_eq. intros x.
  rewrite !elem_of_difference, !elem_of_union, !elem_of_intersection,
    !elem_of_difference, !elem_of_union, !elem_of_intersection.
  destruct (decide (x ∈ own)), (decide (x ∈ ids)); tauto.
Qed.

(** X4. Toggling the same ids twice gives back the [nodeData] as it was. *)
Theorem show_ssd_twice (arg : list string) (self : nodeData) :
  "ALL" ∉ arg → "CONFLICTS" ∉ arg → "OFF" ∉ arg →
  show_ssd arg (show_ssd arg self) = self.
Proof.
  intros Hall Hconf Hoff. rewrite !show_ssd_ids by done.
  destruct self. unfold set_ssd.
  cbn [polynames polydata custwplbl custwplat custwplon filteralt
         traillat0 traillon0 traillat1 traillon1 translvl show_map show_coast
         show_traf show_pz show_fir show_lbl show_wpt show_apt ssd_all
         ssd_conflicts ssd_ownship].
  by rewrite toggle_twice.
Qed.

(** X5. [ssd_all] and [ssd_conflicts] are never both set: no sequence of
    [show_ssd] calls sets both, whatever the arguments. *)
Theorem show_ssd_seq_exclusive (calls : list (list string)) (self : nodeData) :
  ssd_all self && ssd_conflicts self = false →
  ssd_all (show_ssd_seq calls self) && ssd_conflicts (show_ssd_seq calls self)
  = false.
Proof.
  unfold show_ssd_seq. revert self.
  induction calls as [|arg calls IH]; intros self Hself; [done|].
  cbn [foldl]. apply IH. unfold show_ssd. by repeat case_bool_decide.
Qed.

Ltac step_bind :=
  change (@mbind option _ _ _ ?f (Some ?x)) with (f x); cbv beta.

Lemma py_not_involutive (x : nat) : x ≤ 1 → py_not (py_not x) = x.
Proof. unfold py_not. intros Hx. repeat case_decide; lia. Qed.

(** X6. A flag other than SSD and FILTERALT is a toggle or is not known:
    [setflag] never raises on it, and setting it twice gives back the
    [nodeData] as it was, provided the waypoint and airport levels are 0 or
    1, as they are by default. *)
Theorem setflag_twice (flag : string) (args1 args2 : flag_args)
    (self : nodeData) :
  flag ≠ "SSD" → flag ≠ "FILTERALT" →
  show_wpt self ≤ 1 → show_apt self ≤ 1 →
  setflag flag args1 self ≫= setflag flag args2 = Some self.
Proof.
  intros Hssd Hfilt Hwpt Hapt. unfold setflag at 2.
  destruct self as [? ? ? ? ? ? ? ? ? ? ? m c t p f ? w a ? ? ?].
  cbn [show_map show_coast show_traf show_pz show_fir show_wpt show_apt] in *.
  repeat case_bool_decide; step_bind;
    unfold setflag; repeat case_bool_decide; try done;
    unfold set_show_pz, set_show_coast, set_show_fir, set_show_apt,
      set_show_wpt, set_show_map, set_show_traf, set_show;
    cbn [show_map show_coast show_traf show_pz show_fir show_wpt show_apt
           polynames polydata custwplbl custwplat custwplon filteralt
           traillat0 traillon0 traillat1 traillon1 translvl show_lbl ssd_all
           ssd_conflicts ssd_ownship];
    rewrite ?negb_involutive, ?py_not_involutive by done; done.
Qed.

(** ** guiio.py: reading waypoints back *)

Lemma string_app_assoc (s1 s2 s3 : string) :
  (s1 +:+ s2) +:+ s3 = s1 +:+ (s2 +:+ s3).
Proof.
  induction s1 as [|c s1 IH]; [done|].
  change (String c ((s1 +:+ s2) +:+ s3) = String c (s1 +:+ (s2 +:+ s3))).
  by rewrite IH.
Qed.

Lemma substring_app_first (s1 s2 : string) :
  String.substring 0 (String.length s1) (s1 +:+ s2) = s1.
Proof.
  induction s1 as [|c s1 IH].
  - by destruct s2.
  - change (String c (String.substring 0 (String.length s1) (s1 +:+ s2))
            = String c s1).
    by rewrite IH.
Qed.

Lemma substring_app_skip (s1 s2 : string) (n m : nat) :
  String.substring (String.length s1 + n) m (s1 +:+ s2) = String.substring n m s2.
Proof.
  induction s1 as [|c s1 IH]; [done|].
  change (String.substring (String.length s1 + n) m (s1 +:+ s2)
          = String.substring n m s2).
  exact IH.
Qed.

Lemma defwpt_seq_fields (calls : list (string * float * float)) (self : nodeData) :
  custwplbl (defwpt_seq calls self) = custwplbl self +:+ label_fields calls ∧
  custwplat (defwpt_seq calls self)
  = custwplat self ++ ((λ c, float32 c.1.2) <$> calls) ∧
  custwplon (defwpt_seq calls self)
  = custwplon self ++ ((λ c, float32 c.2) <$> calls).
Proof.
  revert self. induction calls as [|[[name lat] lon] calls IH]; intros self.
  - cbn [defwpt_seq foldl label_fields foldr fmap list_fmap].
    rewrite !app_nil_r. split; [|done].
    induction (custwplbl self) as [|c s IHs]; [done|].
    change (String c s = String c (s +:+ "")). by rewrite <- IHs.
  - change (defwpt_seq ((name, lat, lon) :: calls) self)
      with (defwpt_seq calls (defwpt name lat lon self)).
    destruct (IH (defwpt name lat lon self)) as (-> & -> & ->).
    unfold defwpt. cbn [set_custwp custwplbl custwplat custwplon].
    rewrite string_app_assoc, <- !app_assoc. done.
Qed.

Lemma label_fields_substring (calls : list (string * float * float)) i c :
  Forall (λ c, String.length c.1.1 ≤ 5) calls →
  calls !! i = Some c →
  String.substring (5 * i) 5 (label_fields calls) = ljust 5 c.1.1.
Proof.
  intros Hnames. revert i.
  induction Hnames as [|c0 calls Hc0 _ IH]; intros i Hi; [done|].
  assert (String.length (ljust 5 c0.1.1) = 5) as Hlen
    by (rewrite ljust_length; lia).
  cbn [label_fields foldr]. fold (label_fields calls).
  destruct i as [|i].
  - injection Hi as ->. change (5 * 0) with 0.
    rewrite <- Hlen at 1. apply substring_app_first.
  - replace (5 * S i) with (String.length (ljust 5 c0.1.1) + 5 * i) by lia.
    rewrite substring_app_skip. by apply IH.
Qed.

(** X7. After a sequence of [defwpt] calls on a fresh [nodeData], with
    names of at most 5 characters, the [i]-th call can be read back: its
    name, padded to width 5, is [custwplbl[5*i : 5*i + 5]], and its
    converted latitude and longitude are the [i]-th elements of
    [custwplat] and [custwplon]. *)
Theorem defwpt_seq_read_back (calls : list (string * float * float))
    (i : nat) (c : string * float * float) :
  Forall (λ c, String.length c.1.1 ≤ 5) calls →
  calls !! i = Some c →
  String.substring (5 * i) 5 (custwplbl (defwpt_seq calls clear_scen_data))
  = ljust 5 c.1.1 ∧
  custwplat (defwpt_seq calls clear_scen_data) !! i = Some (float32 c.1.2) ∧
  custwplon (defwpt_seq calls clear_scen_data) !! i = Some (float32 c.2).
Proof.
  intros Hnames Hi.
  destruct (defwpt_seq_fields calls clear_scen_data) as (-> & -> & ->).
  cbn [clear_scen_data custwplbl custwplat custwplon app].
  change ("" +:+ label_fields calls) with (label_fields calls).
  rewrite !list_lookup_fmap, Hi. split; [|done].
  by apply label_fields_substring.
Qed.

(** ** guiio.py: subscriptions over a sequence of [actnode] calls *)

Lemma subscriptions_snoc (topic node_id : string) (calls : list client_call)
    (c : client_call) :
  subscriptions topic node_id (calls ++ [c])
  = match c with
    | subscribe t i =>
        if bool_decide (t = topic ∧ i = node_id)
        then (subscriptions topic node_id calls + 1)%Z
        else subscriptions topic node_id calls
    | unsubscribe t i =>
        if bool_decide (t = topic ∧ i = node_id)
        then (subscriptions topic node_id calls - 1)%Z
        else subscriptions topic node_id calls
    | _ => subscriptions topic node_id calls
    end.
Proof. unfold subscriptions. by rewrite foldl_snoc. Qed.

Lemma actnode_one_subscription (newact : string) (c : GuiClient) :
  newact ≠ "" → one_subscription c →
  one_subscription (actnode (Some newact) c).2.
Proof using Type.
  clear float32 uninit translvl_default.
  intros Hnew Hc node_id. specialize (Hc node_id).
  unfold actnode, do_call, set_act.
  destruct (decide (act c = "")) as [Hact|Hact].
  - rewrite bool_decide_eq_false_2 by (by intros ?).
    cbn [snd act client_calls nodedata].
    rewrite !subscriptions_snoc, Hc.
    repeat case_bool_decide; destruct_and?; simplify_eq; try done; tauto.
  - rewrite bool_decide_eq_true_2 by done.
    cbn [snd act client_calls nodedata].
    rewrite !subscriptions_snoc, Hc.
    repeat case_bool_decide; destruct_and?; simplify_eq; try done; try lia;
      tauto.
Qed.

Lemma actnode_seq_snoc (ids : list string) (newact : string) (c : GuiClient) :
  actnode_seq (ids ++ [newact]) c = (actnode (Some newact) (actnode_seq ids c)).2.
Proof. unfold actnode_seq. by rewrite foldl_snoc. Qed.

Lemma actnode_seq_one_subscription (ids : list string) (c : GuiClient) :
  Forall (λ i, i ≠ "") ids → one_subscription c →
  one_subscription (actnode_seq ids c) ∧
  act (actnode_seq ids c) = default (act c) (last ids).
Proof.
  intros Hids Hc. induction ids as [|newact ids IH] using rev_ind; [done|].
  apply Forall_app in Hids as [Hids Hnew]. rewrite Forall_singleton in Hnew.
  rewrite actnode_seq_snoc, last_snoc. split.
  - apply actnode_one_subscription; [done|]. by apply IH.
  - reflexivity.
Qed.

(** X8. Starting with no node active, after any sequence of [actnode]
    calls with non-empty node ids exactly one subscription to ACDATA is
    open, that of the node selected last; every node selected before has
    been unsubscribed again. *)
Theorem actnode_seq_subscriptions (nodes : gmap string nodeData)
    (ids : list string) (node_id : string) :
  Forall (λ i, i ≠ "") ids →
  subscriptions "ACDATA" node_id
    (client_calls (actnode_seq ids (mkGuiClient "" nodes [])))
  = if bool_decide (last ids = Some node_id) then 1%Z else 0%Z.
Proof.
  intros Hids.
  destruct (actnode_seq_one_subscription ids (mkGuiClient "" nodes []) Hids)
    as [Hone Hact].
  { intros n. cbn [client_calls act].
    by rewrite bool_decide_eq_false_2 by (by intros [_ ?]). }
  rewrite Hone, Hact. cbn [act].
  destruct ids as [|newact ids _] using rev_ind.
  - cbn [last default]. by rewrite !bool_decide_eq_false_2 by (by intros [_ ?]).
  - rewrite last_snoc. cbn [default].
    apply Forall_app in Hids as [_ Hnew]. rewrite Forall_singleton in Hnew.
    rewrite (bool_decide_ext _ (Some newact = Some node_id)); [done|].
    split; [by intros [-> _]|by intros [= ->]].
Qed.

(** ** guiio.py: [GuiClient.event] *)

(** What every branch of [event] that returns does to the client: the
    mirror of the sender is stored, and at most an emission of
    [actnodedata_changed] that carries it is added to the trace. *)
Lemma GuiClient_event_inv (name : string) (data : payload) (sender_id : string)
    (self self' : GuiClient_io) :
  GuiClient_event name data sender_id self = Some self' →
  ∃ (d : nodeData) (what : list string) (emitted : bool),
    client self'
    = mkGuiClient (act (client self)) (<[sender_id := d]> (nodedata (client self)))
        (client_calls (client self)
           ++ (if emitted then [actnodedata_changed_emit sender_id (Some d) what]
               else [])) ∧
    (name = "RESET" → d = clear_scen_data ∧ what = UPDATE_ALL ∧ emitted = true) ∧
    (name = "POLY" →
     ∃ n pts, data = poly_data n pts ∧ what = ["POLY"] ∧ emitted = true ∧
       update_poly_data n pts
         (default clear_scen_data (nodedata (client self) !! sender_id)) = Some d) ∧
    (name = "DEFWPT" →
     ∃ n lat lon, data = defwpt_data n lat lon ∧ what = ["CUSTWPT"] ∧
       emitted = true ∧
       d = defwpt n lat lon
             (default clear_scen_data (nodedata (client self) !! sender_id))) ∧
    (name = "DISPLAYFLAG" →
     ∃ flag args, data = displayflag_data flag args ∧ emitted = false ∧
       setflag flag args
         (default clear_scen_data (nodedata (client self) !! sender_id)) = Some d) ∧
    (name ≠ "RESET" → name ≠ "POLY" → name ≠ "DEFWPT" → name ≠ "DISPLAYFLAG" →
     emitted = false ∧
     d = default clear_scen_data (nodedata (client self) !! sender_id) ∧
     signals self' = signals self ++ [event_received_emit name data sender_id]).
Proof.
  unfold GuiClient_event, do_call, emit. intros Hev.
  repeat case_bool_decide; subst.
  - injection Hev as <-. exists clear_scen_data, UPDATE_ALL, true.
    cbn [client act nodedata client_calls]. by split_and!.
  - destruct data as [n pts| | |]; try done.
    apply bind_Some in Hev as (d & Hd & Hev). injection Hev as <-.
    exists d, ["POLY"], true. cbn [client act nodedata client_calls].
    split_and!; try done. intros _. by exists n, pts.
  - destruct data as [|n lat lon| |]; try done. injection Hev as <-.
    eexists _, ["CUSTWPT"], true. cbn [client act nodedata client_calls].
    split_and!; try done. intros _. by exists n, lat, lon.
  - destruct data as [| |flag args|]; try done.
    apply bind_Some in Hev as (d & Hd & Hev). injection Hev as <-.
    exists d, [], false. cbn [client act nodedata client_calls].
    rewrite app_nil_r. split_and!; try done. intros _. by exists flag, args.
  - injection Hev as <-. eexists _, [], false.
    cbn [client act nodedata client_calls signals].
    rewrite app_nil_r. by split_and!.
Qed.

(** X9. An event, whatever its name, touches the mirror of its sender only:
    afterwards the sender has a mirror, the mirrors of the other nodes and
    the active node are as before, and no subscription was opened or
    closed. *)
Theorem GuiClient_event_frame (name : string) (data : payload)
    (sender_id : string) (self self' : GuiClient_io) :
  GuiClient_event name data sender_id self = Some self' →
  act (client self') = act (client self) ∧
  is_Some (nodedata (client self') !! sender_id) ∧
  (∀ other, other ≠ sender_id →
     nodedata (client self') !! other = nodedata (client self) !! other) ∧
  (∀ topic node_id,
     subscriptions topic node_id (client_calls (client self'))
     = subscriptions topic node_id (client_calls (client self))).
Proof.
  intros Hev.
  destruct (GuiClient_event_inv _ _ _ _ _ Hev) as (d & what & emitted & -> & _).
  cbn [act nodedata client_calls]. split_and!.
  - done.
  - rewrite lookup_insert_eq. by eexists.
  - intros other Hother. by rewrite lookup_insert_ne.
  - intros topic node_id. destruct emitted; [|by rewrite app_nil_r].
    by rewrite subscriptions_snoc.
Qed.

Lemma setflag_polygons (flag : string) (args : flag_args) (self d : nodeData) :
  setflag flag args self = Some d →
  polynames d = polynames self ∧ polydata d = polydata self.
Proof.
  unfold setflag, show_ssd. intros Hflag.
  repeat case_bool_decide; try (by injection Hflag as <-).
  - destruct args; [|done]. injection Hflag as <-.
    by repeat case_bool_decide.
  - destruct args as [|[] ?]; try done; by injection Hflag as <-.
Qed.

Lemma GuiClient_event_keeps_fits (name : string) (data : payload)
    (sender_id : string) (self self' : GuiClient_io) :
  client_fits (client self) →
  GuiClient_event name data sender_id self = Some self' →
  client_fits (client self').
Proof.
  intros Hfits Hev.
  destruct (GuiClient_event_inv _ _ _ _ _ Hev)
    as (d & what & emitted & -> & Hreset & Hpoly & Hwpt & Hflag & Hother).
  assert (poly_fits (default clear_scen_data (nodedata (client self) !! sender_id)))
    as Hsender.
  { destruct (nodedata (client self) !! sender_id) as [d0|] eqn:Hd0.
    - by apply (Hfits sender_id).
    - apply clear_scen_data_fits. }
  assert (poly_fits d) as Hd.
  { destruct (decide (name = "RESET")) as [Hn|Hn1].
    { destruct (Hreset Hn) as (-> & _). apply clear_scen_data_fits. }
    destruct (decide (name = "POLY")) as [Hn|Hn2].
    { destruct (Hpoly Hn) as (nm & pts & _ & _ & _ & Hupd).
      by apply (update_poly_data_keeps_fits _ _ _ _ Hsender Hupd). }
    destruct (decide (name = "DEFWPT")) as [Hn|Hn3].
    { destruct (Hwpt Hn) as (nm & lat & lon & _ & _ & _ & ->). exact Hsender. }
    destruct (decide (name = "DISPLAYFLAG")) as [Hn|Hn4].
    { destruct (Hflag Hn) as (flag & args & _ & _ & Hset).
      apply setflag_polygons in Hset as [Hnames Hdata].
      unfold poly_fits. by rewrite Hnames, Hdata. }
    by destruct Hother as (_ & -> & _). }
  intros node_id d1. cbn [nodedata].
  destruct (decide (node_id = sender_id)) as [->|Hne].
  - rewrite lookup_insert_eq. by intros [= <-].
  - rewrite lookup_insert_ne by done. apply Hfits.
Qed.

(** X10. Events keep the polygon buffers of all mirrors consistent with
    the stored lengths, and in such a client a POLY event whose point list
    has an even number of scalars (or none, for a deletion) never raises,
    also from a sender not seen before. *)
Theorem GuiClient_event_POLY_returns :
  (∀ (name : string) (data : payload) (sender_id : string)
     (self self' : GuiClient_io),
     client_fits (client self) →
     GuiClient_event name data sender_id self = Some self' →
     client_fits (client self')) ∧
  (∀ (n : string) (pts : option (list float)) (sender_id : string)
     (self : GuiClient_io),
     client_fits (client self) →
     (∀ d, pts = Some d → ∃ P, length d = 2 * P) →
     ∃ self', GuiClient_event "POLY" (poly_data n pts) sender_id self = Some self' ∧
              client_fits (client self')).
Proof.
  split; [apply GuiClient_event_keeps_fits|].
  intros n pts sender_id self Hfits Hpts.
  assert (poly_fits (default clear_scen_data (nodedata (client self) !! sender_id)))
    as Hsender.
  { destruct (nodedata (client self) !! sender_id) as [d0|] eqn:Hd0.
    - by apply (Hfits sender_id).
    - apply clear_scen_data_fits. }
  destruct (update_poly_data_fits n pts _ Hsender Hpts) as (d & Hd & _).
  assert (is_Some (GuiClient_event "POLY" (poly_data n pts) sender_id self))
    as [self' Hev].
  { unfold GuiClient_event.
    rewrite bool_decide_eq_false_2, bool_decide_eq_true_2 by done.
    rewrite Hd. by eexists. }
  exists self'. split; [done|].
  by apply (GuiClient_event_keeps_fits _ _ _ _ _ Hfits Hev).
Qed.

(** X11. The mirror that a RESET, POLY or DEFWPT event sends along with
    [actnodedata_changed] is the one that [get_nodedata] returns for the
    sender afterwards (for a sender with a non-empty id: for the empty id
    [get_nodedata] answers with the active node). *)
Theorem GuiClient_event_signal_data (name : string) (data : payload)
    (sender_id : string) (self self' : GuiClient_io) :
  sender_id ≠ "" →
  name = "RESET" ∨ name = "POLY" ∨ name = "DEFWPT" →
  GuiClient_event name data sender_id self = Some self' →
  ∃ what,
    last (client_calls (client self'))
    = Some (actnodedata_changed_emit sender_id
              (Some (get_nodedata (Some sender_id) (client self'))) what) ∧
    nodedata (client self') !! sender_id
    = Some (get_nodedata (Some sender_id) (client self')).
Proof.
  intros Hsender Hname Hev.
  destruct (GuiClient_event_inv _ _ _ _ _ Hev)
    as (d & what & emitted & -> & Hreset & Hpoly & Hwpt & _).
  assert (emitted = true) as ->.
  { destruct Hname as [Hn|[Hn|Hn]].
    - by destruct (Hreset Hn) as (_ & _ & ->).
    - by destruct (Hpoly Hn) as (? & ? & _ & _ & -> & _).
    - by destruct (Hwpt Hn) as (? & ? & ? & _ & _ & -> & _). }
  exists what. unfold get_nodedata.
  rewrite bool_decide_eq_false_2 by done. cbn [nodedata client_calls].
  by rewrite last_snoc, lookup_insert_eq.
Qed.

(** ** guiio.py: [nodes_changed] and [send_event] *)



(** X13. After any non-empty sequence of [actnode] calls with non-empty
    node ids, starting with no node active, [send_event] without a target
    (or with the empty target) addresses the node selected last, which is
    the node that has the subscription open. *)
Theorem send_event_to_active (nodes : gmap string nodeData)
    (ids : list string) (sg : list signal) (name : string)
    (data : option payload) (target : option string) :
  Forall (λ i, i ≠ "") ids →
  ids ≠ [] →
  target = None ∨ target = Some "" →
  ∃ node_id,
    last ids = Some node_id ∧
    signals (send_event name data target
               (mkGuiClient_io (actnode_seq ids (mkGuiClient "" nodes [])) sg))
    = sg ++ [Client_send_event name data node_id] ∧
    subscriptions "ACDATA" node_id
      (client_calls (actnode_seq ids (mkGuiClient "" nodes []))) = 1%Z.
Proof.
  intros Hids Hne Htarget.
  destruct (actnode_seq_one_subscription ids (mkGuiClient "" nodes []) Hids)
    as [Hone Hact].
  { intros n. cbn [client_calls act].
    by rewrite bool_decide_eq_false_2 by (by intros [_ ?]). }
  destruct ids as [|node_id ids _] using rev_ind; [done|].
  rewrite last_snoc in *. cbn [default] in Hact.
  apply Forall_app in Hids as [_ Hnew]. rewrite Forall_singleton in Hnew.
  exists node_id. split_and!; [done| |].
  - unfold send_event, emit. cbn [client signals]. rewrite Hact.
    by destruct Htarget as [->| ->].
  - rewrite Hone, Hact. by rewrite bool_decide_eq_true_2.
Qed.

(** ** simulation.py: the loop and the clock *)









(** X16. The node manager is told of a state once: [doWork]'s notification
    step sends the state exactly when it differs from the state sent
    before, records it, and a second pass in the same state sends
    nothing. *)
Theorem doWork_notify_once (w : World) :
  prevstate (sim (doWork_notify w).2) = Some (state (sim w)) ∧
  state (sim (doWork_notify w).2) = state (sim w) ∧
  trace (doWork_notify w).2
  = trace w ++ (if bool_decide (Some (state (sim w)) = prevstate (sim w)) then []
                else [manager_sendEvent (SimStateEvent (state (sim w)))]) ∧
  (doWork_notify (doWork_notify w).2).2 = (doWork_notify w).2.
Proof.
  assert (∀ w, bool_decide (Some (state (sim w)) = prevstate (sim w)) = true →
               (doWork_notify w).2 = w) as Hsame.
  { intros w0 Hdec. unfold doWork_notify. run_method. rewrite Hdec.
    by destruct w0. }
  unfold doWork_notify, sendState. run_method.
  case_bool_decide as Hprev.
  - cbn [snd]. rewrite app_nil_r. split_and!; try done.
    by rewrite bool_decide_eq_true_2.
  - run_method. cbn [set_prevstate prevstate state].
    split_and!; try done. by rewrite bool_decide_eq_true_2.
Qed.

(** ** simulation.py: timestep, batch events and fast-forward *)


(** X18. A batch event leaves the engine in state [op] at simulated time
    zero with the clock and its offset at zero and fast-forward off; the
    scenario is handed to the stack after the stack was reset; [start]
    does not touch [syst] here, because [reset] has switched fast-forward
    off before; the timestep settings, [running] and [ffstop] stay. *)
Theorem event_BatchEvent_restarts (scentime : list Q) (scencmd : list string)
    (w : World) :
  let w' := (event (BatchEvent scentime scencmd) w).2 in
  state (sim w') = op ∧ ffmode (sim w') = false ∧
  simt (sim w') = 0%Q ∧ deltclock (sim w') = 0%Q ∧ simtclock (sim w') = 0%Q ∧
  syst (sim w') = syst (sim w) ∧ running (sim w') = running (sim w) ∧
  ffstop (sim w') = ffstop (sim w) ∧
  (simdt (sim w'), dtmult (sim w'), sysdt (sim w'))
  = (simdt (sim w), dtmult (sim w), sysdt (sim w)) ∧
  trace w'
  = trace w ++ [plugin_reset; navdb_reset; traf_reset; stack_reset;
                datalog_reset; areafilter_reset; scr_reset;
                stack_set_scendata scentime scencmd].
Proof.
  intros w'. subst w'. unfold event, start. run_method.
  rewrite reset_spec. cbn [sim ext trace set_ffmode ffmode fst snd].
  split_and!; try done. by rewrite <- app_assoc.
Qed.

(** X19. [fastforward] switches fast-forward on, with the deadline [nsec]
    after the present simulated time (or none), and leaves the state as it
    is; [start] after it switches fast-forward off, sets the state to [op]
    and sets [syst] to the time of the wall clock, while the deadline
    stays in [ffstop]; [start] without fast-forward leaves [syst] alone;
    [setFixdt] is [fastforward] or [start], by its flag. *)
Theorem fastforward_then_start (nsec : option Q) (w : World) :
  let w1 := (fastforward nsec w).2 in
  let w2 := (start w1).2 in
  ffmode (sim w1) = true ∧
  ffstop (sim w1) = (λ n, simt (sim w) + n)%Q <$> nsec ∧
  state (sim w1) = state (sim w) ∧
  state (sim w2) = op ∧ ffmode (sim w2) = false ∧
  syst (sim w2) = time_ms (ext w) ∧
  ffstop (sim w2) = ffstop (sim w1) ∧
  (ffmode (sim w) = false → syst (sim (start w).2) = syst (sim w)) ∧
  (setFixdt true nsec ;; setFixdt false nsec) w = (fastforward nsec ;; start) w.
Proof.
  intros w1 w2. subst w1 w2. unfold setFixdt, fastforward, start. run_method.
  destruct nsec as [n|]; run_method; cbn [set_ffmode set_ffstop ffmode sim];
    run_method; (split_and!; try done);
    intros Hff; rewrite Hff; by run_method.
Qed.

(** X20. Pausing, resuming, stopping, quitting, fast-forwarding and the
    notification of the state never move the simulated time, the clock or
    the timestep settings; [pause] and then [start] gives state [op] with
    these as they were, and [stop] clears [running] only when headless. *)
Theorem lifecycle_keeps_time (w : World) :
  time_of (sim (pause w).2) = time_of (sim w) ∧
  time_of (sim (start w).2) = time_of (sim w) ∧
  time_of (sim (quit w).2) = time_of (sim w) ∧
  (∀ is_headless, time_of (sim (stop is_headless w).2) = time_of (sim w) ∧
     state (sim (stop is_headless w).2) = end_ ∧
     running (sim (stop is_headless w).2) = running (sim w) && negb is_headless) ∧
  (∀ nsec, time_of (sim (fastforward nsec w).2) = time_of (sim w)) ∧
  time_of (sim (doWork_notify w).2) = time_of (sim w) ∧
  time_of (sim ((pause ;; start) w).2) = time_of (sim w) ∧
  state (sim ((pause ;; start) w).2) = op.
Proof.
  unfold pause, start, quit, stop, fastforward, doWork_notify, sendState.
  run_method. split_and!.
  - done.
  - by destruct (ffmode (sim w)).
  - done.
  - intros []; run_method; split_and!; try done;
      cbn [set_running set_state running]; by destruct (running (sim w)).
  - by intros [n|].
  - by case_bool_decide.
  - cbn [set_state ffmode]. by destruct (ffmode (sim w)).
  - cbn [set_state ffmode]. by destruct (ffmode (sim w)).
Qed.

End bluesky.


(** ** Runs on concrete inputs

    The array elements are integers here, which float32 represents
    exactly, so that [np.float32] is the identity on them. *)

Arguments polynames {float} _.
Arguments polydata {float} _.
Arguments custwplbl {float} _.
Arguments custwplat {float} _.
Arguments custwplon {float} _.
Arguments ssd_all {float} _.
Arguments ssd_conflicts {float} _.
Arguments ssd_ownship {float} _.
Arguments set_poly {float} _ _ _.
Arguments set_ssd {float} _ _ _ _.
Arguments remove_poly {float} _ _.
Arguments show_ssd {float} _ _.
Arguments mkGuiClient {float} _ _ _.
Arguments act {float} _.
Arguments nodedata {float} _.
Arguments client_calls {float} _.
Arguments unsubscribe {float} _ _.
Arguments subscribe {float} _ _.
Arguments actnodedata_changed_emit {float} _ _ _.
Arguments actnode {float} _ _.

#[local] Existing Instance idle_collaborators.

(** C1. With a polygon A of three points and then a polygon B of two
    points stored, B is recorded as (12, 8); [update_poly_data("B")] then
    deletes [range(12, 8)], which is empty: the name B is dropped, yet the
    eight floats of B stay in the buffer. *)
Lemma update_poly_data_leaves_second_polygon :
  let upd := update_poly_data Z (λ z, z) (λ _, 0%Z) in
  (s ← upd "A" (Some [1; 2; 3; 4; 5; 6]%Z) (clear_scen_data Z 0%Z);
   s ← upd "B" (Some [7; 8; 9; 10]%Z) s;
   s' ← upd "B" None s;
   Some (polynames s !! "B", polydata s, polynames s' !! "B", polydata s'))
  = Some (Some (12, 8),
          [1; 2; 3; 4; 3; 4; 5; 6; 5; 6; 1; 2; 7; 8; 9; 10; 9; 10; 7; 8]%Z,
          None,
          [1; 2; 3; 4; 3; 4; 5; 6; 5; 6; 1; 2; 7; 8; 9; 10; 9; 10; 7; 8]%Z).
Proof. vm_compute. reflexivity. Qed.

Lemma update_poly_data_segments_witness :
  let points := [1; 2; 3; 4; 5; 6]%Z in
  let fresh := clear_scen_data Z 0%Z in
  length points = 2 * 3 ∧
  remove_poly "A" fresh = Some fresh ∧
  ∃ newbuf,
    update_poly_data Z (λ z, z) (λ _, 0%Z) "A" (Some points) fresh
    = Some (set_poly (<["A" := (length (polydata fresh), 4 * 3)]> (polynames fresh))
              (polydata fresh ++ newbuf) fresh) ∧
    length newbuf = 4 * 3 ∧
    ∀ k, k < 3 →
      newbuf !! (4 * k) = (λ z, z) <$> points !! (2 * k) ∧
      newbuf !! (4 * k + 1) = (λ z, z) <$> points !! (2 * k + 1) ∧
      newbuf !! (4 * k + 2) = (λ z, z) <$> points !! (2 * ((k + 1) mod 3)) ∧
      newbuf !! (4 * k + 3) = (λ z, z) <$> points !! (2 * ((k + 1) mod 3) + 1).
Proof.
  intros points fresh. split; [reflexivity|]. split; [reflexivity|].
  apply (proj1 (update_poly_data_segments Z (λ z, z) (λ _, 0%Z) 0%Z)
           "A" points 3 fresh fresh); reflexivity.
Defined.

Lemma show_ssd_symmetric_difference_witness :
  let self := set_ssd false false {["AB1"]} (clear_scen_data Z 0%Z) in
  ("ALL" ∉ ["AB1"; "CD2"]) ∧ ("CONFLICTS" ∉ ["AB1"; "CD2"]) ∧
  ("OFF" ∉ ["AB1"; "CD2"]) ∧
  ssd_ownship self = {["AB1"]} ∧
  ssd_ownship (show_ssd ["AB1"; "CD2"] self) = {["CD2"]}.
Proof.
  intros self.
  assert (ssd_ownship self = {["AB1"]}) as Hown by reflexivity.
  split_and!;
    [apply (bool_decide_unpack _); vm_compute; exact I ..
    | exact Hown
    | exact (proj2 (show_ssd_symmetric_difference Z) self Hown)].
Defined.

(** A name of eight characters is appended whole. *)
Lemma defwpt_long_name :
  let s := defwpt Z (λ z, z) "SCHIPHOL" 52%Z 4%Z (clear_scen_data Z 0%Z) in
  custwplbl s = "SCHIPHOL" ∧
  length (custwplat s) = 1 ∧
  String.length (custwplbl s) ≠ 5 * length (custwplat s).
Proof. intros s. split_and!; [reflexivity | reflexivity | by vm_compute]. Qed.

Lemma defwpt_fixed_width_witness :
  let calls := [("SPY", 52, 4); ("EH007", 51, 5)]%Z in
  Forall (λ c, String.length c.1.1 ≤ 5) calls ∧
  String.length (custwplbl (defwpt_seq Z (λ z, z) calls (clear_scen_data Z 0%Z)))
  = 5 * length calls.
Proof.
  intros calls.
  assert (Forall (λ c, String.length c.1.1 ≤ 5) calls) as Hcalls.
  { repeat constructor; simpl; lia. }
  split; [exact Hcalls|].
  exact (proj2 (proj2 (defwpt_fixed_width Z (λ z, z) 0%Z)) calls Hcalls).
Defined.

(** Selecting the node that is active already is not without effect: two
    calls are made and the signal is emitted. *)
Lemma actnode_reselect_not_noop :
  let data := clear_scen_data Z 0%Z in
  let c := mkGuiClient "node1" {["node1" := data]} [] in
  actnode (Some "node1") c
  = ("node1",
     mkGuiClient "node1" {["node1" := data]}
       [unsubscribe "ACDATA" "node1"; subscribe "ACDATA" "node1";
        actnodedata_changed_emit "node1" (Some data) UPDATE_ALL]) ∧
  (actnode (Some "node1") c).2 ≠ c.
Proof.
  intros data c.
  assert (actnode (Some "node1") c
          = ("node1",
             mkGuiClient "node1" {["node1" := data]}
               [unsubscribe "ACDATA" "node1"; subscribe "ACDATA" "node1";
                actnodedata_changed_emit "node1" (Some data) UPDATE_ALL])) as Hact.
  { subst c. unfold actnode, do_call, set_act. cbn [act nodedata client_calls].
    rewrite bool_decide_eq_true_2 by done.
    cbn [act nodedata client_calls app]. by rewrite lookup_singleton_eq. }
  split; [exact Hact|]. rewrite Hact. cbn [snd]. intros Heq.
  apply (f_equal client_calls) in Heq. discriminate.
Qed.

Lemma actnode_subscription_witness :
  let c := mkGuiClient (float := Z) "node1" ∅ [] in
  act c ≠ "" ∧
  actnode (Some "node2") c
  = ("node2",
     mkGuiClient "node2" ∅
       [unsubscribe "ACDATA" "node1"; subscribe "ACDATA" "node2";
        actnodedata_changed_emit "node2" None UPDATE_ALL]).
Proof.
  intros c.
  assert (act c ≠ "") as Hact by discriminate.
  split; [exact Hact|].
  exact (proj1 (actnode_subscription Z c) "node2" Hact).
Defined.






(** Two polygons are stored and deleted again, in a fresh [nodeData]. *)
Lemma update_poly_seq_never_raises_witness :
  let calls := [("A", Some [1; 2; 3; 4; 5; 6]%Z); ("B", Some [7; 8; 9; 10]%Z);
                ("B", None); ("A", None)] in
  let fresh := clear_scen_data Z 0%Z in
  poly_fits Z fresh ∧
  Forall (λ c, ∀ d, c.2 = Some d → ∃ P, length d = 2 * P) calls ∧
  ∃ self', update_poly_seq Z (λ z, z) (λ _, 0%Z) calls fresh = Some self' ∧
           poly_fits Z self'.
Proof.
  intros calls fresh.
  assert (poly_fits Z fresh) as Hfits by apply clear_scen_data_fits.
  assert (Forall (λ c : string * option (list Z),
                    ∀ d, c.2 = Some d → ∃ P, length d = 2 * P) calls) as Hcalls.
  { repeat constructor; cbn; intros d [= <-]; [by exists 3 | by exists 2]. }
  split; [exact Hfits|]. split; [exact Hcalls|].
  exact (update_poly_seq_never_raises Z (λ z, z) (λ _, 0%Z) calls fresh Hfits Hcalls).
Defined.

Lemma update_poly_data_add_delete_witness :
  let points := [1; 2; 3; 4; 5; 6]%Z in
  let fresh := clear_scen_data Z 0%Z in
  length points = 2 * 3 ∧ polydata fresh = [] ∧ polynames fresh !! "A" = None ∧
  update_poly_data Z (λ z, z) (λ _, 0%Z) "A" (Some points) fresh
    ≫= update_poly_data Z (λ z, z) (λ _, 0%Z) "A" None
  = Some fresh.
Proof.
  intros points fresh. split_and!; [reflexivity ..|].
  apply (update_poly_data_add_delete Z (λ z, z) (λ _, 0%Z) "A" points 3 fresh);
    reflexivity.
Defined.

Lemma update_poly_data_odd_length_witness :
  let points := [1; 2; 3; 4; 5]%Z in
  length points = 2 * 2 + 1 ∧ 2 ≠ 1 ∧
  update_poly_data Z (λ z, z) (λ _, 0%Z) "A" (Some points) (clear_scen_data Z 0%Z)
  = None.
Proof.
  intros points. split; [reflexivity|]. split; [lia|].
  apply (update_poly_data_odd_length Z (λ z, z) (λ _, 0%Z) "A" points 2);
    [reflexivity | lia].
Defined.

Lemma show_ssd_twice_witness :
  let self := set_ssd false false {["AB1"]} (clear_scen_data Z 0%Z) in
  let arg := ["AB1"; "CD2"] in
  ("ALL" ∉ arg) ∧ ("CONFLICTS" ∉ arg) ∧ ("OFF" ∉ arg) ∧
  show_ssd arg (show_ssd arg self) = self.
Proof.
  intros self arg.
  assert ("ALL" ∉ arg) as Hall by (apply (bool_decide_unpack _); vm_compute; exact I).
  assert ("CONFLICTS" ∉ arg) as Hconf
    by (apply (bool_decide_unpack _); vm_compute; exact I).
  assert ("OFF" ∉ arg) as Hoff by (apply (bool_decide_unpack _); vm_compute; exact I).
  split_and!; [exact Hall | exact Hconf | exact Hoff |].
  exact (show_ssd_twice Z arg self Hall Hconf Hoff).
Defined.

Lemma show_ssd_seq_exclusive_witness :
  let fresh := clear_scen_data Z 0%Z in
  let calls := [["ALL"]; ["AB1"]; ["CONFLICTS"; "ALL"]; ["OFF"]; ["CONFLICTS"]] in
  ssd_all fresh && ssd_conflicts fresh = false ∧
  ssd_all (show_ssd_seq Z calls fresh) && ssd_conflicts (show_ssd_seq Z calls fresh)
  = false.
Proof.
  intros fresh calls.
  assert (ssd_all fresh && ssd_conflicts fresh = false) as Hfresh by reflexivity.
  split; [exact Hfresh|].
  exact (show_ssd_seq_exclusive Z calls fresh Hfresh).
Defined.

Lemma setflag_twice_witness :
  let fresh := clear_scen_data Z 0%Z in
  "APT" ≠ "SSD" ∧ "APT" ≠ "FILTERALT" ∧
  show_wpt Z fresh ≤ 1 ∧ show_apt Z fresh ≤ 1 ∧
  setflag Z "APT" (switch_args Z true []) fresh
    ≫= setflag Z "APT" (switch_args Z true [])
  = Some fresh.
Proof.
  intros fresh.
  assert (show_wpt Z fresh ≤ 1) as Hwpt by (cbn; lia).
  assert (show_apt Z fresh ≤ 1) as Hapt by (cbn; lia).
  split_and!; [discriminate | discriminate | exact Hwpt | exact Hapt |].
  apply (setflag_twice Z "APT" (switch_args Z true []) (switch_args Z true []) fresh);
    [discriminate | discriminate | exact Hwpt | exact Hapt].
Defined.

Lemma defwpt_seq_read_back_witness :
  let calls := [("WP1", 52, 4); ("HOME", 51, 5); ("X", 50, 6)]%Z in
  let self := defwpt_seq Z (λ z, z) calls (clear_scen_data Z 0%Z) in
  Forall (λ c : string * Z * Z, String.length c.1.1 ≤ 5) calls ∧
  calls !! 1 = Some ("HOME", 51, 5)%Z ∧
  String.substring (5 * 1) 5 (custwplbl self) = ljust 5 "HOME" ∧
  custwplat self !! 1 = Some 51%Z ∧
  custwplon self !! 1 = Some 5%Z.
Proof.
  intros calls self.
  assert (Forall (λ c : string * Z * Z, String.length c.1.1 ≤ 5) calls) as Hshort
    by (repeat constructor; cbn; lia).
  split; [exact Hshort|]. split; [reflexivity|].
  exact (defwpt_seq_read_back Z (λ z, z) 0%Z calls 1 ("HOME", 51, 5)%Z Hshort eq_refl).
Defined.

Lemma actnode_seq_subscriptions_witness :
  let ids := ["n1"; "n2"; "n1"; "n3"] in
  Forall (λ i : string, i ≠ "") ids ∧
  subscriptions Z "ACDATA" "n1"
    (client_calls (actnode_seq Z ids (mkGuiClient "" ∅ [])))
  = if bool_decide (last ids = Some "n1") then 1%Z else 0%Z.
Proof.
  intros ids.
  assert (Forall (λ i : string, i ≠ "") ids) as Hids
    by (repeat constructor; discriminate).
  split; [exact Hids|].
  exact (actnode_seq_subscriptions Z ∅ ids "n1" Hids).
Defined.

Lemma GuiClient_event_frame_witness :
  let self := GuiClient_init Z in
  let r := GuiClient_event Z (λ z, z) (λ _, 0%Z) 0%Z "POLY"
             (poly_data Z "A" (Some [1; 2; 3; 4]%Z)) "n1" self in
  ∃ self',
    r = Some self' ∧
    act (client Z self') = act (client Z self) ∧
    is_Some (nodedata (client Z self') !! "n1") ∧
    (∀ other, other ≠ "n1" →
       nodedata (client Z self') !! other = nodedata (client Z self) !! other) ∧
    (∀ topic node_id,
       subscriptions Z topic node_id (client_calls (client Z self'))
       = subscriptions Z topic node_id (client_calls (client Z self))).
Proof.
  intros self r.
  assert (is_Some r) as [self' Hr] by (vm_compute; eexists; reflexivity).
  exists self'. split; [exact Hr|].
  exact (GuiClient_event_frame Z (λ z, z) (λ _, 0%Z) 0%Z "POLY"
           (poly_data Z "A" (Some [1; 2; 3; 4]%Z)) "n1" self self' Hr).
Defined.

Lemma GuiClient_event_POLY_returns_witness :
  let self := GuiClient_init Z in
  let pts := Some [1; 2; 3; 4]%Z in
  client_fits Z (client Z self) ∧
  (∀ d, pts = Some d → ∃ P, length d = 2 * P) ∧
  ∃ self',
    GuiClient_event Z (λ z, z) (λ _, 0%Z) 0%Z "POLY" (poly_data Z "A" pts) "n1" self
    = Some self' ∧
    client_fits Z (client Z self').
Proof.
  intros self pts.
  assert (client_fits Z (client Z self)) as Hfits.
  { intros node_id d Hd. cbn in Hd. by rewrite lookup_empty in Hd. }
  assert (∀ d, pts = Some d → ∃ P, length d = 2 * P) as Hpts.
  { intros d [= <-]. by exists 2. }
  split; [exact Hfits|]. split; [exact Hpts|].
  exact (proj2 (GuiClient_event_POLY_returns Z (λ z, z) (λ _, 0%Z) 0%Z)
           "A" pts "n1" self Hfits Hpts).
Defined.

Lemma GuiClient_event_signal_data_witness :
  let self := GuiClient_init Z in
  let r := GuiClient_event Z (λ z, z) (λ _, 0%Z) 0%Z "DEFWPT"
             (defwpt_data Z "HOME" 51%Z 5%Z) "n1" self in
  "n1" ≠ "" ∧
  ("DEFWPT" = "RESET" ∨ "DEFWPT" = "POLY" ∨ "DEFWPT" = "DEFWPT") ∧
  ∃ self',
    r = Some self' ∧
    ∃ what,
      last (client_calls (client Z self'))
      = Some (actnodedata_changed_emit "n1"
                (Some (get_nodedata Z 0%Z (Some "n1") (client Z self'))) what) ∧
      nodedata (client Z self') !! "n1"
      = Some (get_nodedata Z 0%Z (Some "n1") (client Z self')).
Proof.
  intros self r.
  assert ("n1" ≠ "") as Hid by discriminate.
  assert ("DEFWPT" = "RESET" ∨ "DEFWPT" = "POLY" ∨ "DEFWPT" = "DEFWPT") as Hname
    by (right; right; reflexivity).
  assert (is_Some r) as [self' Hr] by (vm_compute; eexists; reflexivity).
  split; [exact Hid|]. split; [exact Hname|].
  exists self'. split; [exact Hr|].
  exact (GuiClient_event_signal_data Z (λ z, z) (λ _, 0%Z) 0%Z "DEFWPT"
           (defwpt_data Z "HOME" 51%Z 5%Z) "n1" self self' Hid Hname Hr).
Defined.


Lemma send_event_to_active_witness :
  let ids := ["n1"; "n2"] in
  let c := actnode_seq Z ids (mkGuiClient "" ∅ []) in
  Forall (λ i : string, i ≠ "") ids ∧ ids ≠ [] ∧
  ∃ node_id,
    last ids = Some node_id ∧
    signals Z (send_event Z "STACKCMD" None None (mkGuiClient_io Z c []))
    = [] ++ [Client_send_event Z "STACKCMD" None node_id] ∧
    subscriptions Z "ACDATA" node_id (client_calls c) = 1%Z.
Proof.
  intros ids c.
  assert (Forall (λ i : string, i ≠ "") ids) as Hids
    by (repeat constructor; discriminate).
  assert (ids ≠ []) as Hne by discriminate.
  split; [exact Hids|]. split; [exact Hne|].
  exact (send_event_to_active Z ∅ ids [] "STACKCMD" None None Hids Hne
           (or_introl eq_refl)).
Defined.




Lemma fastforward_then_start_witness :
  let w := mkWorld Simulation_init tt [] in
  ffmode (sim w) = false ∧
  syst (sim (start w).2) = syst (sim w).
Proof.
  intros w.
  assert (ffmode (sim w) = false) as Hff by reflexivity.
  split; [exact Hff|].
  exact (proj1 (proj2 (proj2 (proj2 (proj2 (proj2 (proj2 (proj2
           (fastforward_then_start None w)))))))) Hff).
Defined.
